(** * nest-square: configuration loading, the retrying service and the
      module registration

    A shallow embedding of [src/nest-square.config.ts],
    [src/nest-square.service.ts] and [src/nest-square.module.ts].

    - [Js]            values shared by the files: thrown errors and the two
                      ways a call can end.
    - [Config]        the environment-derived configuration factory.
    - [Service]       [NestSquareService]: client construction, the retry
                      helper and the operations built on it, as state
                      transformers over a [World] that holds the injected
                      configuration, the requests sent to the vendor API and
                      the logger's output.
    - [Registration]  the dynamic modules [NestSquareModule] hands to the
                      framework.
    - [Scenario]      a test account: concrete declarations, a
                      configuration and servers, on which the statements are
                      run. *)

From Stdlib Require Import ZArith.
From stdpp Require Import gmap strings list.

Local Open Scope string_scope.

(* ===================================================================== *)
(** ** JavaScript-level data *)
(* ===================================================================== *)

Module Js.

(** The error objects the code tells apart: [instanceof ApiError] (the
    vendor SDK's class, with its HTTP status), the framework's
    [InternalServerErrorException] built around another error, and any
    other [Error]. *)
Inductive JsError : Type :=
| Error (message : string)
| ApiError (statusCode : Z) (body : string)
| InternalServerErrorException (cause : JsError).

(** How a call ends: it returns a value or throws (for an async function:
    the promise is fulfilled or rejected). *)
Inductive Outcome (T : Type) : Type :=
| Returned (value : T)
| Thrown (error : JsError).
Arguments Returned {T} value.
Arguments Thrown {T} error.

Definition instanceof_ApiError (e : JsError) : bool :=
  match e with
  | ApiError _ _ => true
  | _ => false
  end.

End Js.
Import Js.

(* ===================================================================== *)
(** ** nest-square.config.ts *)
(* ===================================================================== *)

Module Config.

Definition NEST_SQUARE_CONFIG_INJECTION_KEY : string := "NEST_SQUARE_CONFIG".

Record NestSquareConfigType : Type := {
  clientEnvironment : string;
  oauthClientId : string;
  oauthClientSecret : string;
}.

(** One entry of the list [validateSync] returns: the property that failed
    and the name of the constraint it failed. *)
Record ValidationError : Type := {
  property : string;
  constraint : string;
}.

(** [@IsString()]: [typeof value === "string"].  A property read from
    [process.env] is a string, or undefined when the variable is not set. *)
Definition IsString (value : option string) : bool :=
  match value with
  | Some _ => true
  | None => false
  end.

(** [class SquareConfigValidator]: its decorated properties, in the order
    of declaration; each carries [@IsString()]. *)
Definition SquareConfigValidator : list string :=
  [ "SQUARE_OAUTH_CLIENT_ID";
    "SQUARE_OAUTH_CLIENT_SECRET";
    "SQUARE_CLIENT_ENVIRONMENT" ].

(** [plainToClass(SquareConfigValidator, process.env,
    {enableImplicitConversion: true})]: an instance carrying the
    properties of the plain object; the implicit conversion to the declared
    type [String] leaves a string as it is. *)
Definition plainToClass (plain : gmap string string) : gmap string string :=
  plain.

(** [validateSync(object, {skipMissingProperties})]: one error per
    decorated property whose value fails its constraint; with
    [skipMissingProperties] an undefined property is not checked. *)
Definition validateSync (object : gmap string string)
    (skipMissingProperties : bool) : list ValidationError :=
  flat_map
    (fun p =>
       match object !! p with
       | None =>
           if skipMissingProperties then []
           else if IsString None then []
           else [ {| property := p; constraint := "isString" |} ]
       | Some v =>
           if IsString (Some v) then []
           else [ {| property := p; constraint := "isString" |} ]
       end)
    SquareConfigValidator.

Section Factory.

(** [errors.toString()]: the text class-validator prints for a list of
    validation errors; only used as the message of the thrown [Error]. *)
Variable toString : list ValidationError -> string.

(** The factory registered under ["square"]; [env] is [process.env].
    [process.env.X!] reads the variable ([!] is a type assertion only). *)
Definition NestSquareConfig (env : gmap string string)
  : Outcome NestSquareConfigType :=
  let errors := validateSync (plainToClass env) false in
  if (0 <? length errors)%nat then
    Thrown (Error (toString errors))
  else
    Returned
      {| clientEnvironment := env !!! "SQUARE_CLIENT_ENVIRONMENT";
         oauthClientId := env !!! "SQUARE_OAUTH_CLIENT_ID";
         oauthClientSecret := env !!! "SQUARE_OAUTH_CLIENT_SECRET" |}.

End Factory.

End Config.

(* ===================================================================== *)
(** ** nest-square.service.ts *)
(* ===================================================================== *)

Module Service.
Import Config.

(** *** What is declared outside the two files

    The payload types of two vendor responses, which the service hands on
    untouched; the members of the catalog object type enumeration
    ([nest-square-catalog-object-type.enum.ts]) with the text each one
    contributes to [Array.prototype.join]; and the error the retry library
    reports when its attempts run out without the failure callback having
    thrown (its [mainError], chosen among the errors recorded so far). *)
Class Declarations : Type := {
  ObtainTokenResponse : Type;
  CreateCatalogImageResponse : Type;
  NestSquareCatalogObjectTypeEnum : Type;
  enumValue : NestSquareCatalogObjectTypeEnum -> string;
  mainError : list JsError -> JsError;
}.

Module HttpStatus.
Definition TOO_MANY_REQUESTS : Z := 429.
Definition INTERNAL_SERVER_ERROR : Z := 500.
End HttpStatus.

(** *** Vendor SDK data, as far as the service builds or reads it *)

(** [new Client({accessToken, environment})]. *)
Record Client : Type := {
  accessToken : option string;
  environment : string;
}.

Record ApiResponse (T : Type) : Type := {
  result : T;
  statusCode : Z;
  body : string;
}.
Arguments result {T} _.
Arguments statusCode {T} _.
Arguments body {T} _.

Record ObtainTokenRequest : Type := {
  clientId : string;
  clientSecret : option string;
  code : option string;
  grantType : string;
  refreshToken : option string;
}.

Record CatalogImage : Type := {
  caption : option string;
}.

Record CatalogObject : Type := {
  type : string;
  id : string;
  imageData : option CatalogImage;
}.

Record ListCatalogResponse : Type := {
  cursor : option string;
  objects : option (list CatalogObject);
}.

Record CreateCatalogImageRequest : Type := {
  idempotencyKey : string;
  objectId : option string;
  image : CatalogObject;
}.

Definition Buffer : Type := list Byte.byte.

(** A [Readable]: the chunks pushed before the end marker. *)
Definition Readable : Type := list Buffer.

Record FileWrapper : Type := {
  fileStream : Readable;
  contentType : option string;
}.

(** [NestSquareFile] ([nest-square-file.ts]): the two fields the upload
    reads. *)
Record NestSquareFile : Type := {
  buffer : Buffer;
  mimetype : string;
}.

Section WithDeclarations.
Context `{Declarations}.

(** The three vendor calls the service makes, each indexed by the type of
    the value its promise is fulfilled with. *)
Inductive Request : Type -> Type :=
| obtainToken (client : Client) (request : ObtainTokenRequest)
  : Request (ApiResponse ObtainTokenResponse)
| listCatalog (client : Client) (cursor : option string)
    (types : option string)
  : Request (ApiResponse ListCatalogResponse)
| createCatalogImage (client : Client)
    (request : CreateCatalogImageRequest) (imageFile : FileWrapper)
  : Request (ApiResponse CreateCatalogImageResponse).

(** A request as it stands in the record of requests sent. *)
Definition Sent : Type := { T : Type & Request T }.

Definition sent {T : Type} (r : Request T) : Sent := existT T r.

(** The vendor API: how the call made after [n] earlier calls ends. *)
Definition Server : Type := forall T : Type, nat -> Request T -> Outcome T.

(** *** The world the service runs in *)

Inductive LogLine : Type :=
| LogVerbose (message : string)
| LogError (message : string) (detail : JsError).

Record World : Type := {
  config : NestSquareConfigType;   (* this.config, as injected *)
  calls : list Sent;               (* requests sent to the vendor API *)
  logged : list LogLine;           (* what this.logger has written *)
}.

(** An (async) method body: from a world to how it ends and the world it
    leaves.  [mret], [mthrow] and the bind behind [x ← m; k] are those of
    this state-and-exception monad. *)
Definition M (T : Type) : Type := World -> Outcome T * World.

#[global] Instance M_ret : MRet M :=
  fun T (v : T) (w : World) => (Returned v, w).

#[global] Instance M_throw : MThrow JsError M :=
  fun T (e : JsError) (w : World) => (@Thrown T e, w).

#[global] Instance M_bind : MBind M :=
  fun A B (k : A -> M B) (m : M A) (w : World) =>
    match m w with
    | (Returned a, w') => k a w'
    | (Thrown e, w') => (Thrown e, w')
    end.

(** [this.config]. *)
Definition this_config : M NestSquareConfigType :=
  fun w => (Returned (config w), w).

(** [this.logger.verbose(message)] and [this.logger.error(message, detail)]. *)
Definition logger_verbose (message : string) : M unit :=
  fun w =>
    (Returned tt,
     {| config := config w; calls := calls w;
        logged := logged w ++ [LogVerbose message] |}).

Definition logger_error (message : string) (detail : JsError) : M unit :=
  fun w =>
    (Returned tt,
     {| config := config w; calls := calls w;
        logged := logged w ++ [LogError message detail] |}).

Section WithServer.
Variable server : Server.

(** Sending request [r]: it joins the record of requests, and the server
    decides how the call ends. *)
Definition send {T : Type} (r : Request T) : M T :=
  fun w =>
    (server T (length (calls w)) r,
     {| config := config w; calls := calls w ++ [sent r];
        logged := logged w |}).

(** [client(params?)]. *)
Definition client (params : option (option string)) : M Client :=
  logger_verbose "client";;
  config ← this_config;
  mret {| accessToken := mjoin params;
          environment := clientEnvironment config |}.

(** [fn] is a thunk that, run under configuration [cfg], sends the one
    request [r], ends the way the server makes that call end, and leaves the
    configuration as it was. *)
Definition issues {T : Type} (fn : M T) (cfg : NestSquareConfigType)
    (r : Request T) : Prop :=
  forall w : World,
    config w = cfg ->
    (fn w).1 = server T (length (calls w)) r
    /\ calls (fn w).2 = (calls w ++ [sent r])%list
    /\ config (fn w).2 = cfg.

(** *** p-retry, as the service uses it

    [pRetry(input, {onFailedAttempt})] with the library's default of 10
    retries.  A failed attempt hands its error, tagged with the attempt
    number and [retriesLeft = retries - (attemptNumber - 1)], to
    [onFailedAttempt]; if that throws, what it throws is the result;
    otherwise the next attempt runs while a scheduled retry remains
    ([timeouts] counts them), and [mainError] is reported when none does.
    Delays between attempts are not modelled.  The error is taken to be one
    the library hands to the callback: an [Error] object other than the
    library's own abort marker and other than a non-network [TypeError]. *)
Record FailedAttemptError : Type := {
  thrown : JsError;
  attemptNumber : nat;
  retriesLeft : nat;
}.

Definition defaultRetries : nat := 10.

Fixpoint attempt {T : Type} (input : M T)
    (onFailedAttempt : FailedAttemptError -> M unit)
    (retries attemptNumber : nat) (errors : list JsError)
    (timeouts : nat) {struct timeouts} : M T :=
  fun w =>
    match input w with
    | (Returned value, w1) => (Returned value, w1)
    | (Thrown e, w1) =>
        let error :=
          {| thrown := e;
             attemptNumber := attemptNumber;
             retriesLeft := retries - (attemptNumber - 1) |} in
        match onFailedAttempt error w1 with
        | (Thrown e', w2) => (Thrown e', w2)
        | (Returned _, w2) =>
            match timeouts with
            | O => (Thrown (mainError (errors ++ [e])), w2)
            | S timeouts' =>
                attempt input onFailedAttempt retries (S attemptNumber)
                  (errors ++ [e]) timeouts' w2
            end
        end
    end.

Definition pRetry {T : Type} (input : M T)
    (onFailedAttempt : FailedAttemptError -> M unit) : M T :=
  attempt input onFailedAttempt defaultRetries 1 [] defaultRetries.

(** *** NestSquareService *)

(** The callback [pRetryOrThrow] gives to p-retry. *)
Definition onFailedAttempt (error : FailedAttemptError) : M unit :=
  match thrown error with
  | ApiError statusCode _ =>
      let isRetryable :=
        (statusCode >=? HttpStatus.INTERNAL_SERVER_ERROR)%Z
        || (statusCode =? HttpStatus.TOO_MANY_REQUESTS)%Z in
      if negb isRetryable || (retriesLeft error =? 0)%nat then
        logger_error "pRetryOrThrow" (thrown error);;
        mthrow (InternalServerErrorException (thrown error))
      else mret tt
  | _ => mthrow (thrown error)
  end.

Definition pRetryOrThrow {T : Type} (fn : M T) : M T :=
  logger_verbose "pRetryOrThrow";;
  pRetry fn onFailedAttempt.

Definition retryOrThrow {T : Type} (accessToken : string)
    (clientFn : Client -> M T) : M T :=
  logger_verbose "retryOrThrow";;
  pRetryOrThrow (c ← client (Some (Some accessToken)); clientFn c).

Definition retryObtainTokenOrThrow (code : string)
  : M (ApiResponse ObtainTokenResponse) :=
  logger_verbose "retryObtainTokenOrThrow";;
  pRetryOrThrow
    (c ← client None;
     config ← this_config;
     send (obtainToken c
             {| clientId := oauthClientId config;
                clientSecret := Some (oauthClientSecret config);
                grantType := "authorization_code";
                code := Some code;
                refreshToken := None |})).

Definition retryRefreshTokenOrThrow (refreshToken : string)
  : M (ApiResponse ObtainTokenResponse) :=
  logger_verbose "retryRefreshTokenOrThrow";;
  pRetryOrThrow
    (c ← client None;
     config ← this_config;
     send (obtainToken c
             {| clientId := oauthClientId config;
                clientSecret := Some (oauthClientSecret config);
                grantType := "refresh_token";
                code := None;
                refreshToken := Some refreshToken |})).

(** [types.join(",")]. *)
Definition join_types (types : list NestSquareCatalogObjectTypeEnum)
  : string :=
  String.concat "," (map enumValue types).

(** A computation that may still be running when the fuel is spent. *)
Definition Partial (T : Type) : Type := World -> option (Outcome T * World).

(** The [while (cursor !== undefined)] loop of [accumulateCatalogOrThrow];
    [fuel] bounds the number of iterations. *)
Fixpoint accumulate_while (fuel : nat) (client : Client) (theTypes : string)
    (cursor : option string) (catalogObjects : list CatalogObject)
  : Partial (list CatalogObject) :=
  fun w =>
    match cursor with
    | None => Some (Returned catalogObjects, w)
    | Some c =>
        match fuel with
        | O => None
        | S fuel' =>
            match
              pRetryOrThrow
                (send (listCatalog client (Some c) (Some theTypes))) w
            with
            | (Thrown e, w') => Some (Thrown e, w')
            | (Returned listCatalogResponse, w') =>
                accumulate_while fuel' client theTypes
                  (Service.cursor (result listCatalogResponse))
                  (catalogObjects
                   ++ default [] (objects (result listCatalogResponse)))
                  w'
            end
        end
    end.

Definition accumulateCatalogOrThrow (fuel : nat) (accessToken : string)
    (types : list NestSquareCatalogObjectTypeEnum)
  : Partial (list CatalogObject) :=
  fun w =>
    let theTypes := join_types types in
    match
      (logger_verbose "accumulateCatalogOrThrow";;
       client ← client (Some (Some accessToken));
       listCatalogResponse ←
         pRetryOrThrow (send (listCatalog client None (Some theTypes)));
       mret (client, listCatalogResponse)) w
    with
    | (Thrown e, w') => Some (Thrown e, w')
    | (Returned (client, listCatalogResponse), w') =>
        accumulate_while fuel client theTypes
          (cursor (result listCatalogResponse))
          ([] ++ default [] (objects (result listCatalogResponse)))
          w'
    end.

(** [@Inject("NEST_SQUARE_CONFIG")]: the token under which the
    constructor asks for its configuration. *)
Definition constructorInject : string := "NEST_SQUARE_CONFIG".

(** [new NestSquareService(config)]: the world right after construction. *)
Definition NestSquareService (config : NestSquareConfigType) : World :=
  {| config := config; calls := [];
     logged := [LogVerbose "NestSquareService"] |}.

Definition bufferToStream (buffer : Buffer) : Readable := [buffer].

Definition uploadCatalogImageOrThrow (accessToken idempotencyKey id : string)
    (objectId : option string) (file : NestSquareFile)
    (caption : option string) : M CreateCatalogImageResponse :=
  logger_verbose "uploadCatalogImageOrThrow";;
  let fileStream := bufferToStream (buffer file) in
  let fileWrapper :=
    {| fileStream := fileStream; contentType := Some (mimetype file) |} in
  response ←
    pRetryOrThrow
      (c ← client (Some (Some accessToken));
       send (createCatalogImage c
               {| idempotencyKey := idempotencyKey;
                  objectId := objectId;
                  image :=
                    {| type := "IMAGE";
                       id := "#" ++ id;
                       imageData := Some {| caption := caption |} |} |}
               fileWrapper));
  mret (result response).

End WithServer.

End WithDeclarations.

End Service.

Import Config Service.

(* ===================================================================== *)
(** ** nest-square.module.ts *)
(* ===================================================================== *)

Module Registration.

Section WithFramework.

(** What the framework declares: the modules one can import, the factories
    of asynchronous providers, and the tokens such a factory has injected.
    [forFeature] stands for [ConfigModule.forFeature(NestSquareConfig)]. *)
Variables ImportedModule Factory Token : Type.
Variable forFeature : ImportedModule.

Inductive Provider : Type :=
| ClassProvider (name : string)
| ValueProvider (provide : string) (useValue : NestSquareConfigType)
| FactoryProvider (provide : string) (useFactory : Factory)
    (inject : list Token).

Record DynamicModule : Type := {
  module : string;
  imports : list ImportedModule;
  providers : list Provider;
  exports : list string;
}.

(** [NestSquareAsyncOptions] ([nest-square-async-options.ts]); [imports]
    and [inject] may be left out. *)
Record NestSquareAsyncOptions : Type := {
  optionsImports : option (list ImportedModule);
  optionsUseFactory : Factory;
  optionsInject : option (list Token);
}.

Definition fromEnv : DynamicModule :=
  {| module := "NestSquareModule";
     imports := [forFeature];
     providers := [ClassProvider "NestSquareService"];
     exports := ["NestSquareService"] |}.

Definition forRoot (options : NestSquareConfigType) : DynamicModule :=
  {| module := "NestSquareModule";
     imports := [];
     providers :=
       [ClassProvider "NestSquareService";
        ValueProvider NEST_SQUARE_CONFIG_INJECTION_KEY options];
     exports := ["NestSquareService"] |}.

Definition forRootAsync (options : NestSquareAsyncOptions) : DynamicModule :=
  {| module := "NestSquareModule";
     imports := default [] (optionsImports options);
     providers :=
       [ClassProvider "NestSquareService";
        FactoryProvider NEST_SQUARE_CONFIG_INJECTION_KEY
          (optionsUseFactory options)
          (default [] (optionsInject options))];
     exports := ["NestSquareService"] |}.

(** The providers of a module that are registered under the string token
    [token]; a class provider is registered under its class. *)
Definition providersFor (token : string) (m : DynamicModule)
  : list Provider :=
  List.filter
    (fun p =>
       match p with
       | ClassProvider _ => false
       | ValueProvider provide _ => String.eqb provide token
       | FactoryProvider provide _ _ => String.eqb provide token
       end)
    (providers m).

End WithFramework.

Arguments ClassProvider {Factory Token} name.
Arguments ValueProvider {Factory Token} provide useValue.
Arguments FactoryProvider {Factory Token} provide useFactory inject.
Arguments fromEnv {ImportedModule Factory Token} forFeature.
Arguments forRoot {ImportedModule Factory Token} options.
Arguments forRootAsync {ImportedModule Factory Token} options.
Arguments providersFor {ImportedModule Factory Token} token m.

End Registration.

(* ===================================================================== *)
(** ** A test account: concrete declarations, configuration and servers *)
(* ===================================================================== *)

Module Scenario.

(** Responses reduced to the text that matters: the token obtained, the
    id of the image created; catalog object types named by their value. *)
Definition declarations : Declarations :=
  {| ObtainTokenResponse := string;
     CreateCatalogImageResponse := string;
     NestSquareCatalogObjectTypeEnum := string;
     enumValue := fun value => value;
     mainError := fun errors => List.last errors (Error "") |}.

Definition toString (errors : list ValidationError) : string :=
  String.concat "," (map property errors).

Definition config : NestSquareConfigType :=
  {| clientEnvironment := "sandbox";
     oauthClientId := "sq0idp-1";
     oauthClientSecret := "sq0csp-2" |}.

(** The environment this configuration is loaded from. *)
Definition env : gmap string string :=
  {[ "SQUARE_CLIENT_ENVIRONMENT" := "sandbox";
     "SQUARE_OAUTH_CLIENT_ID" := "sq0idp-1";
     "SQUARE_OAUTH_CLIENT_SECRET" := "sq0csp-2";
     "PATH" := "/usr/bin" ]}.

Definition item : CatalogObject :=
  {| type := "ITEM"; id := "A1"; imageData := None |}.

Definition category : CatalogObject :=
  {| type := "CATEGORY"; id := "B2"; imageData := None |}.

(** A catalog of two pages: the first ends in the cursor ["next"]. *)
Definition page (i : nat) : ApiResponse ListCatalogResponse :=
  match i with
  | O =>
      {| result := {| cursor := Some "next"; objects := Some [item] |};
         statusCode := 200; body := "" |}
  | S _ =>
      {| result := {| cursor := None; objects := Some [category] |};
         statusCode := 200; body := "" |}
  end.

(** The answer of the vendor API when nothing goes wrong. *)
Definition answer {T : Type} (r : @Request declarations T) : T :=
  match r in Request T return T with
  | obtainToken _ _ =>
      {| result := "EAAA"; statusCode := 200; body := "" |}
  | listCatalog _ None _ => page 0
  | listCatalog _ (Some _) _ => page 1
  | createCatalogImage _ _ _ =>
      {| result := "IMG7"; statusCode := 200; body := "" |}
  end.

Definition steady : @Server declarations :=
  fun T _ r => Returned (answer r).

(** A server whose first calls fail with [errors], one after the other,
    and that answers from then on. *)
Definition failing (errors : list JsError) : @Server declarations :=
  fun T n r =>
    match errors !! n with
    | Some e => Thrown e
    | None => Returned (answer r)
    end.

(** A server that fails the call numbered [call] with [e] and answers
    every other one. *)
Definition failingAt (call : nat) (e : JsError) : @Server declarations :=
  fun T n r =>
    if (n =? call)%nat then Thrown e else Returned (answer r).

(** A server whose every catalog page is the first one, cursor
    included. *)
Definition endless : @Server declarations :=
  fun T _ r =>
    match r in Request T return Outcome T with
    | listCatalog _ _ _ => Returned (page 0)
    | obtainToken client request =>
        Returned (answer (obtainToken client request))
    | createCatalogImage client request imageFile =>
        Returned (answer (createCatalogImage client request imageFile))
    end.

Definition world : @World declarations := NestSquareService config.

(** The client of a listing made with the access token ["TOKEN"]. *)
Definition catalogClient : Client :=
  {| accessToken := Some "TOKEN"; environment := "sandbox" |}.

(** The token request of this account, for the authorization code
    ["AUTH"]. *)
Definition tokenCall : @Request declarations (ApiResponse string) :=
  obtainToken
    {| accessToken := None; environment := "sandbox" |}
    {| clientId := "sq0idp-1";
       clientSecret := Some "sq0csp-2";
       code := Some "AUTH";
       grantType := "authorization_code";
       refreshToken := None |}.

End Scenario.

(* ===================================================================== *)
(** ** Vocabulary of the statements *)
(* ===================================================================== *)

Local Open Scope list_scope.

(** The failures the callback lets the library retry: a vendor [ApiError]
    whose status is a server error or the rate-limit status. *)
Definition retryable (e : JsError) : Prop :=
  exists s b, e = ApiError s b /\ (s >= 500 \/ s = 429)%Z.

(** An attempt that ended in such a failure. *)
Definition retried {T : Type} (o : Outcome T) : Prop :=
  exists e, o = Thrown e /\ retryable e.

(** What the caller of [pRetryOrThrow] sees of the attempt it stops at:
    the value the attempt returned; for a failure, the error itself unless
    it is a vendor [ApiError], which comes wrapped. *)
Definition settledError (e : JsError) : JsError :=
  match e with
  | ApiError s b => InternalServerErrorException (ApiError s b)
  | _ => e
  end.

Definition settled {T : Type} (o : Outcome T) : Outcome T :=
  match o with
  | Returned v => Returned v
  | Thrown e => Thrown (settledError e)
  end.

(** The line [this.logger.error] writes for that attempt, if any. *)
Definition errorLine {T : Type} (o : Outcome T) : list LogLine :=
  match o with
  | Thrown (ApiError s b) => [LogError "pRetryOrThrow" (ApiError s b)]
  | _ => []
  end.

Section Vocabulary.
Context `{Declarations}.

(** A thunk that writes the lines [lines] to the log each time it runs. *)
Definition logs {T : Type} (fn : M T) (lines : list LogLine) : Prop :=
  forall w : World, logged (fn w).2 = (logged w ++ lines)%list.

(** A thunk that leaves the configuration alone. *)
Definition keepsConfig {T : Type} (fn : M T) : Prop :=
  forall w : World, config (fn w).2 = config w.

(** The request for page [i] of a listing whose pages are [page 0],
    [page 1], ...: the first carries no cursor, each later one the cursor of
    the page before it. *)
Definition pageRequest (client : Client) (theTypes : string)
    (page : nat -> ApiResponse ListCatalogResponse) (i : nat)
  : Request (ApiResponse ListCatalogResponse) :=
  listCatalog client
    match i with
    | O => None
    | S j => cursor (result (page j))
    end
    (Some theTypes).

(** The server answers the first [n] page requests, made as calls [base],
    [base + 1], ..., with the pages. *)
Definition serves (server : Server) (base : nat) (client : Client)
    (theTypes : string) (page : nat -> ApiResponse ListCatalogResponse)
    (n : nat) : Prop :=
  forall i : nat,
    i < n ->
    server _ (base + i) (pageRequest client theTypes page i)
    = Returned (page i).

(** The number, counted from the first request of the listing, of the call
    that first asks for page [i], when the request for page [j] fails
    [fails j] times before it is answered. *)
Fixpoint firstCall (fails : nat -> nat) (i : nat) : nat :=
  match i with
  | O => 0
  | S j => firstCall fails j + S (fails j)
  end.

(** The server answers the first [n] page requests with the pages, the
    request for page [i] after [fails i] retryable failures. *)
Definition servesAfter (server : Server) (base : nat) (client : Client)
    (theTypes : string) (page : nat -> ApiResponse ListCatalogResponse)
    (fails : nat -> nat) (n : nat) : Prop :=
  forall i : nat,
    i < n ->
    fails i <= 10
    /\ (forall a : nat,
          a < fails i ->
          retried (server _ (base + firstCall fails i + a)
                     (pageRequest client theTypes page i)))
    /\ server _ (base + firstCall fails i + fails i)
         (pageRequest client theTypes page i)
       = Returned (page i).

(** The requests of such a listing, in the order they are sent. *)
Definition pageCalls (client : Client) (theTypes : string)
    (page : nat -> ApiResponse ListCatalogResponse) (fails : nat -> nat)
    (from n : nat) : list Sent :=
  concat
    (map (fun i => replicate (S (fails i))
                     (sent (pageRequest client theTypes page i)))
       (seq from n)).

(** The objects of pages [0 .. n-1], page after page. *)
Definition pageObjects (page : nat -> ApiResponse ListCatalogResponse)
    (n : nat) : list CatalogObject :=
  concat (map (fun i => default [] (objects (result (page i)))) (seq 0 n)).

End Vocabulary.

(* ===================================================================== *)
(** ** Facts about the retry helper *)
(* ===================================================================== *)

Ltac unfold_m :=
  unfold mbind, M_bind, mret, M_ret, mthrow, M_throw, this_config,
    logger_verbose, logger_error in *.

Section RetryFacts.
Context `{Declarations}.

Lemma retryable_dec e : retryable e \/ ~ retryable e.
Proof.
  destruct e as [m | s b | c];
    try (right; intros (s' & b' & Heq & _); discriminate).
  destruct (Z_le_gt_dec 500%Z s) as [Hs | Hs].
  - left. exists s, b. split; [reflexivity | lia].
  - destruct (Z.eq_dec s 429%Z) as [-> | Hne].
    + left. exists 429%Z, b. split; [reflexivity | lia].
    + right. intros (s' & b' & [= <- <-] & Hc). lia.
Qed.

Lemma attempt_eq {T} (input : M T) cb retries n errors t w :
  attempt input cb retries n errors t w
  = match input w with
    | (Returned value, w1) => (Returned value, w1)
    | (Thrown e, w1) =>
        match
          cb {| thrown := e; attemptNumber := n;
                retriesLeft := retries - (n - 1) |} w1
        with
        | (Thrown e', w2) => (Thrown e', w2)
        | (Returned _, w2) =>
            match t with
            | O => (Thrown (mainError (errors ++ [e])), w2)
            | S t' => attempt input cb retries (S n) (errors ++ [e]) t' w2
            end
        end
    end.
Proof. destruct t; reflexivity. Qed.

Lemma onFailedAttempt_other e n left w :
  instanceof_ApiError e = false ->
  onFailedAttempt {| thrown := e; attemptNumber := n; retriesLeft := left |} w
  = (Thrown e, w).
Proof. intros He. destruct e; try discriminate; reflexivity. Qed.

Lemma onFailedAttempt_retry s b n left w :
  (s >= 500 \/ s = 429)%Z ->
  left <> 0 ->
  onFailedAttempt
    {| thrown := ApiError s b; attemptNumber := n; retriesLeft := left |} w
  = (Returned tt, w).
Proof.
  intros Hs Hl. unfold onFailedAttempt; cbn [thrown retriesLeft].
  unfold HttpStatus.INTERNAL_SERVER_ERROR, HttpStatus.TOO_MANY_REQUESTS.
  replace ((s >=? 500)%Z || (s =? 429)%Z) with true
    by (symmetry; apply orb_true_iff; lia).
  destruct left; [done | reflexivity].
Qed.

Lemma onFailedAttempt_wrap s b n left w :
  ~ (s >= 500 \/ s = 429)%Z \/ left = 0 ->
  onFailedAttempt
    {| thrown := ApiError s b; attemptNumber := n; retriesLeft := left |} w
  = (Thrown (InternalServerErrorException (ApiError s b)),
     {| config := config w; calls := calls w;
        logged := logged w ++ [LogError "pRetryOrThrow" (ApiError s b)] |}).
Proof.
  intros Hc. unfold onFailedAttempt; cbn [thrown retriesLeft].
  unfold HttpStatus.INTERNAL_SERVER_ERROR, HttpStatus.TOO_MANY_REQUESTS.
  assert (negb ((s >=? 500)%Z || (s =? 429)%Z) || (left =? 0)%nat = true)
    as ->.
  { apply orb_true_iff. destruct Hc as [Hc | ->]; [left | by right].
    apply negb_true_iff, orb_false_iff. lia. }
  reflexivity.
Qed.


Variable server : Server.

Lemma retried_dec {T} (o : Outcome T) : retried o \/ ~ retried o.
Proof.
  destruct o as [v | e].
  - right. intros (e & Heq & _). discriminate.
  - destruct (retryable_dec e) as [He | He].
    + left. exists e. split; [reflexivity | exact He].
    + right. intros (e' & [= <-] & He'). exact (He He').
Qed.

Lemma attempt_stop {T} (fn : M T) cfg (r : Request T) t n errs w :
  issues server fn cfg r ->
  config w = cfg ->
  ~ retried (server T (length (calls w)) r) \/ t = 0 ->
  exists w',
    attempt fn onFailedAttempt (n - 1 + t) n errs t w
    = (settled (server T (length (calls w)) r), w')
    /\ calls w' = (calls w ++ [sent r])%list
    /\ config w' = cfg
    /\ logged w'
       = (logged (fn w).2 ++ errorLine (server T (length (calls w)) r))%list.
Proof.
  intros Hiss Hcfg Hstop. rewrite attempt_eq.
  destruct (Hiss w Hcfg) as (Ho & Hc & Hcf).
  destruct (fn w) as [o w1] eqn:Hfn. cbn [fst snd] in *.
  rewrite <- Ho in *. clear Ho. destruct o as [v | e].
  - exists w1. cbn. rewrite app_nil_r. done.
  - destruct e as [m | s b | c].
    + rewrite onFailedAttempt_other by reflexivity.
      exists w1. cbn. rewrite app_nil_r. done.
    + rewrite onFailedAttempt_wrap.
      * eexists. split; [reflexivity |]. cbn. done.
      * destruct Hstop as [Hnr | ->]; [left | right; lia].
        intros Hs. apply Hnr. exists (ApiError s b).
        split; [reflexivity |]. exists s, b. done.
    + rewrite onFailedAttempt_other by reflexivity.
      exists w1. cbn. rewrite app_nil_r. done.
Qed.

Lemma attempt_step {T} (fn : M T) cfg (r : Request T) t n errs w :
  issues server fn cfg r ->
  config w = cfg ->
  1 <= n ->
  retried (server T (length (calls w)) r) ->
  exists e,
    attempt fn onFailedAttempt (n - 1 + S t) n errs (S t) w
    = attempt fn onFailedAttempt (S n - 1 + t) (S n) (errs ++ [e]) t (fn w).2.
Proof.
  intros Hiss Hcfg Hn (e & He & s & b & -> & Hs). exists (ApiError s b).
  rewrite attempt_eq.
  destruct (Hiss w Hcfg) as (Ho & _).
  destruct (fn w) as [o w1] eqn:Hfn. cbn [fst snd] in *.
  rewrite Ho, He. rewrite onFailedAttempt_retry by (done || lia).
  replace (n - 1 + S t) with (S n - 1 + t) by lia. reflexivity.
Qed.

Lemma attempt_issues {T} (fn : M T) cfg (r : Request T) :
  issues server fn cfg r ->
  forall t n errs w,
    config w = cfg -> 1 <= n ->
    exists k w',
      attempt fn onFailedAttempt (n - 1 + t) n errs t w
      = (settled (server T (length (calls w) + k) r), w')
      /\ k <= t
      /\ calls w' = (calls w ++ replicate (S k) (sent r))%list
      /\ config w' = cfg
      /\ (forall i, i < k -> retried (server T (length (calls w) + i) r))
      /\ (k < t -> ~ retried (server T (length (calls w) + k) r))
      /\ (forall lines, logs fn lines ->
            logged w'
            = (logged w ++ concat (replicate (S k) lines)
               ++ errorLine (server T (length (calls w) + k) r))%list).
Proof.
  intros Hiss. induction t as [| t IH]; intros n errs w Hcfg Hn.
  - destruct (attempt_stop fn cfg r 0 n errs w Hiss Hcfg)
      as (w' & Heq & Hc & Hcf & Hl); [by right |].
    exists 0, w'. replace (length (calls w) + 0) with (length (calls w)) by lia.
    repeat split; try done; try lia.
    intros lines Hlines. rewrite Hl, Hlines. cbn. rewrite app_nil_r.
    by rewrite app_assoc.
  - destruct (retried_dec (server T (length (calls w)) r)) as [Hr | Hnr].
    + destruct (attempt_step fn cfg r t n errs w Hiss Hcfg Hn Hr) as (e & ->).
      destruct (Hiss w Hcfg) as (_ & Hc1 & Hcf1).
      destruct (IH (S n) (errs ++ [e]) (fn w).2 Hcf1) as
        (k & w' & Heq & Hk & Hc & Hcf & Hpre & Hlast & Hl); [lia |].
        assert (Hlen : forall i, length (calls (fn w).2) + i
                               = length (calls w) + S i).
      { intros i. rewrite Hc1, length_app. cbn. lia. }
      exists (S k), w'. rewrite Hlen in *. repeat split; try done; try lia.
      * rewrite Hc, Hc1. cbn. by rewrite <- app_assoc.
      * intros [| i] Hi;
          [by replace (length (calls w) + 0) with (length (calls w)) by lia |].
        rewrite <- Hlen. apply Hpre. lia.
      * intros Hlt. apply Hlast. lia.
      * intros lines Hlines. rewrite (Hl lines Hlines), Hlines.
        cbn [replicate concat]. by rewrite <- !app_assoc.
    + destruct (attempt_stop fn cfg r (S t) n errs w Hiss Hcfg)
        as (w' & Heq & Hc & Hcf & Hl); [by left |].
      exists 0, w'.
      replace (length (calls w) + 0) with (length (calls w)) by lia.
    repeat split; try done; try lia.
      intros lines Hlines. rewrite Hl, Hlines. cbn. rewrite app_nil_r.
      by rewrite app_assoc.
Qed.

Lemma retried_ApiError {T} s b :
  (s >= 500 \/ s = 429)%Z -> retried (@Thrown T (ApiError s b)).
Proof. intros Hs. exists (ApiError s b). split; [done |]. by exists s, b. Qed.

Lemma stop_unique {T} (answer : nat -> Outcome T) t k k' :
  k <= t -> k' <= t ->
  (forall i, i < k -> retried (answer i)) ->
  (k < t -> ~ retried (answer k)) ->
  (forall i, i < k' -> retried (answer i)) ->
  (k' < t -> ~ retried (answer k')) ->
  k = k'.
Proof.
  intros Hk Hk' Hpre Hlast Hpre' Hlast'.
  destruct (Nat.lt_trichotomy k k') as [Hlt | [Heq | Hgt]]; [| done |].
  - exfalso. apply Hlast; [lia |]. by apply Hpre'.
  - exfalso. apply Hlast'; [lia |]. by apply Hpre.
Qed.

Lemma pRetryOrThrow_issues {T} (fn : M T) (r : Request T) w :
  issues server fn (config w) r ->
  exists k w',
    pRetryOrThrow fn w = (settled (server T (length (calls w) + k) r), w')
    /\ k <= 10
    /\ calls w' = calls w ++ replicate (S k) (sent r)
    /\ config w' = config w
    /\ (forall i, i < k -> retried (server T (length (calls w) + i) r))
    /\ (k < 10 -> ~ retried (server T (length (calls w) + k) r))
    /\ (forall lines, logs fn lines ->
          logged w'
          = logged w ++ [LogVerbose "pRetryOrThrow"]
            ++ concat (replicate (S k) lines)
            ++ errorLine (server T (length (calls w) + k) r)).
Proof.
  intros Hiss. unfold pRetryOrThrow, pRetry. unfold_m.
  set (w0 := {| config := config w; calls := calls w;
                logged := logged w ++ [LogVerbose "pRetryOrThrow"] |}).
  destruct (attempt_issues fn (config w) r Hiss 10 1 [] w0)
    as (k & w' & Heq & Hk & Hc & Hcf & Hpre & Hlast & Hl); [done | lia |].
  exists k, w'. cbn in *. repeat split; try done.
  intros lines Hlines. rewrite (Hl lines Hlines). by rewrite <- !app_assoc.
Qed.

Lemma pRetryOrThrow_stops_at {T} (fn : M T) (r : Request T) w k :
  issues server fn (config w) r ->
  k <= 10 ->
  (forall i, i < k -> retried (server T (length (calls w) + i) r)) ->
  (k < 10 -> ~ retried (server T (length (calls w) + k) r)) ->
  exists w',
    pRetryOrThrow fn w = (settled (server T (length (calls w) + k) r), w')
    /\ calls w' = calls w ++ replicate (S k) (sent r)
    /\ config w' = config w
    /\ (forall lines, logs fn lines ->
          logged w'
          = logged w ++ [LogVerbose "pRetryOrThrow"]
            ++ concat (replicate (S k) lines)
            ++ errorLine (server T (length (calls w) + k) r)).
Proof.
  intros Hiss Hk Hpre Hlast.
  destruct (pRetryOrThrow_issues fn r w Hiss)
    as (k' & w' & Heq & Hk' & Hc & Hcf & Hpre' & Hlast' & Hl).
  assert (k = k') as <-.
  { by apply (stop_unique (fun i => server T (length (calls w) + i) r) 10). }
  exists w'. done.
Qed.

(** The thunks the service hands to the retry helper. *)

Lemma issues_send {T} (r : Request T) cfg : issues server (send server r) cfg r.
Proof. intros w Hw. done. Qed.

Lemma logs_send {T} (r : Request T) : logs (send server r) [].
Proof. intros w. cbn. by rewrite app_nil_r. Qed.

Lemma issues_client_send {T} params (f : Client -> Request T) cfg :
  issues server (c ← client params; send server (f c)) cfg
    (f {| accessToken := mjoin params;
          environment := clientEnvironment cfg |}).
Proof. intros w <-. done. Qed.

Lemma logs_client_send {T} params (f : Client -> Request T) :
  logs (c ← client params; send server (f c)) [LogVerbose "client"].
Proof. intros w. done. Qed.

Lemma issues_client_config_send {T} params
    (f : Client -> NestSquareConfigType -> Request T) cfg :
  issues server
    (c ← client params; config ← this_config; send server (f c config)) cfg
    (f {| accessToken := mjoin params;
          environment := clientEnvironment cfg |} cfg).
Proof. intros w <-. done. Qed.

Lemma logs_client_config_send {T} params
    (f : Client -> NestSquareConfigType -> Request T) :
  logs (c ← client params; config ← this_config; send server (f c config))
    [LogVerbose "client"].
Proof. intros w. done. Qed.

End RetryFacts.

(* ===================================================================== *)
(** ** What holds for every thunk *)
(* ===================================================================== *)

Section AnyThunk.
Context `{Declarations}.

Lemma onFailedAttempt_frame err w :
  config (onFailedAttempt err w).2 = config w
  /\ calls (onFailedAttempt err w).2 = calls w.
Proof.
  unfold onFailedAttempt. destruct (thrown err); try done.
  by destruct (negb _ || _).
Qed.

Lemma onFailedAttempt_returns err w :
  (onFailedAttempt err w).1 = Returned tt ->
  retryable (thrown err) /\ retriesLeft err <> 0.
Proof.
  unfold onFailedAttempt. destruct (thrown err) as [m | s b | c]; try done.
  unfold HttpStatus.INTERNAL_SERVER_ERROR, HttpStatus.TOO_MANY_REQUESTS.
  destruct ((s >=? 500)%Z || (s =? 429)%Z) eqn:Hs; [| done].
  destruct (retriesLeft err) as [| left]; [done |]. intros _. split; [| done].
  exists s, b. split; [done |]. apply orb_true_iff in Hs. lia.
Qed.

Lemma attempt_keepsConfig {T} (fn : M T) :
  keepsConfig fn ->
  forall t retries n errs w,
    config (attempt fn onFailedAttempt retries n errs t w).2 = config w.
Proof.
  intros Hfn. induction t as [| t IH]; intros retries n errs w;
    rewrite attempt_eq; specialize (Hfn w);
    destruct (fn w) as [[v | e] w1]; cbn [snd] in *; try done;
    match goal with
    | |- context [onFailedAttempt ?err w1] =>
        destruct (onFailedAttempt_frame err w1) as [Hcf _];
        destruct (onFailedAttempt err w1) as [[[] | e'] w2]
    end; cbn [snd] in *; try congruence.
Qed.

Lemma pRetryOrThrow_keepsConfig {T} (fn : M T) :
  keepsConfig fn -> keepsConfig (pRetryOrThrow fn).
Proof.
  intros Hfn w. unfold pRetryOrThrow, pRetry. unfold_m.
  by rewrite attempt_keepsConfig.
Qed.

Lemma attempt_not_ApiError {T} (fn : M T) :
  forall t n errs w e w',
    1 <= n ->
    attempt fn onFailedAttempt (n - 1 + t) n errs t w = (Thrown e, w') ->
    instanceof_ApiError e = false.
Proof.
  induction t as [| t IH]; intros n errs w e w' Hn; rewrite attempt_eq;
    destruct (fn w) as [[v | e0] w1]; try done;
    match goal with
    | |- context [onFailedAttempt ?err w1] =>
        pose proof (onFailedAttempt_returns err w1) as Hret;
        assert (Hthrow : forall e' w2, onFailedAttempt err w1 = (Thrown e', w2)
                                       -> instanceof_ApiError e' = false);
        [ intros e' w2; unfold onFailedAttempt; cbn [thrown];
          destruct e0; try (intros [= <- _]; reflexivity);
          destruct (negb _ || _); [intros [= <- _]; reflexivity | done]
        | destruct (onFailedAttempt err w1) as [[[] | e'] w2] ]
    end; cbn [fst thrown retriesLeft] in *.
  - destruct Hret as [_ Hleft]; [done | lia].
  - intros [= <- <-]. by eapply Hthrow.
  - replace (n - 1 + S t) with (S n - 1 + t) by lia. apply IH. lia.
  - intros [= <- <-]. by eapply Hthrow.
Qed.

Lemma attempt_outcome {T} (fn : M T) :
  forall t n errs w,
    1 <= n ->
    exists w0,
      match fn w0, attempt fn onFailedAttempt (n - 1 + t) n errs t w with
      | (Returned v0, w1), (Returned v, w') => v = v0 /\ w' = w1
      | (Thrown e0, w1), (Thrown e, w') =>
          e = settledError e0 /\ calls w' = calls w1 /\ config w' = config w1
      | _, _ => False
      end.
Proof.
  induction t as [| t IH]; intros n errs w Hn; rewrite attempt_eq;
    destruct (fn w) as [[v | e0] w1] eqn:Hfn;
    try (exists w; by rewrite Hfn);
    (destruct (retryable_dec e0) as [(s & b & -> & Hs) | Hnr];
     [| destruct e0 as [m | s b | c];
        [ exists w; by rewrite Hfn, onFailedAttempt_other
        | exists w; rewrite Hfn, onFailedAttempt_wrap; [done |];
          left; intros Hs; apply Hnr; by exists s, b
        | exists w; by rewrite Hfn, onFailedAttempt_other ] ]).
  - exists w. rewrite Hfn, onFailedAttempt_wrap; [done | right; lia].
  - rewrite onFailedAttempt_retry by (done || lia).
    replace (n - 1 + S t) with (S n - 1 + t) by lia. apply IH. lia.
Qed.

End AnyThunk.

(* ===================================================================== *)
(** ** Facts about the catalog listing *)
(* ===================================================================== *)

Section CatalogFacts.
Context `{Declarations}.
Variable server : Server.

Lemma concat_replicate_nil {A} n : concat (replicate n (@nil A)) = [].
Proof. induction n as [| n IH]; [done | exact IH]. Qed.

Lemma not_retried_Returned {T} (v : T) : ~ retried (Returned v).
Proof. intros (e & Heq & _). discriminate. Qed.

Lemma accumulate_while_pages client theTypes page fails base k :
  forall j fuel objs w,
    length (calls w) = base + firstCall fails (S j) ->
    servesAfter server base client theTypes page fails (S (j + k)) ->
    (forall i, i < j + k -> cursor (result (page i)) <> None) ->
    exists w',
      accumulate_while server (k + fuel) client theTypes
        (cursor (result (page j))) objs w
      = accumulate_while server fuel client theTypes
          (cursor (result (page (j + k))))
          (objs ++ concat (map (fun i => default [] (objects (result (page i))))
                             (seq (S j) k)))
          w'
      /\ calls w' = calls w ++ pageCalls client theTypes page fails (S j) k
      /\ config w' = config w
      /\ logged w' = logged w ++ replicate k (LogVerbose "pRetryOrThrow").
Proof.
  induction k as [| k IH]; intros j fuel objs w Hlen Hserved Hcursors.
  - exists w. unfold pageCalls. cbn. rewrite Nat.add_0_r, !app_nil_r. done.
  - destruct (Hserved (S j) ltac:(lia)) as (Hfails & Hpre & Hpage).
    pose proof (Hcursors j ltac:(lia)) as Hcj.
    destruct (cursor (result (page j))) as [c |] eqn:Hcur; [| done].
    cbn [Nat.add accumulate_while].
    assert (Hreq : pageRequest client theTypes page (S j)
                   = listCatalog client (Some c) (Some theTypes)).
    { unfold pageRequest. by rewrite Hcur. }
    rewrite Hreq in *. rewrite <- Hlen in *.
    destruct (pRetryOrThrow_stops_at server (send server _) _ w (fails (S j))
                (issues_send server _ (config w)) Hfails Hpre)
      as (w1 & Hrun & Hc1 & Hcf1 & Hl1).
    { rewrite Hpage. intros _. apply not_retried_Returned. }
    rewrite Hrun, Hpage. cbn [settled].
    specialize (Hl1 [] (logs_send server _)).
    rewrite Hpage in Hl1. cbn [errorLine] in Hl1.
    destruct (IH (S j) fuel
                (objs ++ default [] (objects (result (page (S j))))) w1)
      as (w' & Heq & Hcalls & Hcfg & Hlog).
    + rewrite Hc1, length_app, length_replicate, Hlen. cbn [firstCall]. lia.
    + replace (S (S j + k)) with (S (j + S k)) by lia. done.
    + intros i Hi. apply Hcursors. lia.
    + exists w'. rewrite Heq. replace (S j + k) with (j + S k) by lia.
      split; [| split; [| split]].
      * f_equal. cbn [seq map concat]. by rewrite <- app_assoc.
      * rewrite Hcalls, Hc1. unfold pageCalls. cbn [seq map concat].
        rewrite Hreq. by rewrite <- app_assoc.
      * congruence.
      * rewrite Hlog, Hl1, concat_replicate_nil. cbn [replicate].
        rewrite !app_nil_r. by rewrite <- app_assoc.
Qed.

Lemma accumulateCatalogOrThrow_pages accessToken types w page fails k fuel :
  let client := {| accessToken := Some accessToken;
                   environment := clientEnvironment (config w) |} in
  let theTypes := join_types types in
  servesAfter server (length (calls w)) client theTypes page fails (S k) ->
  (forall i, i < k -> cursor (result (page i)) <> None) ->
  exists w',
    accumulateCatalogOrThrow server (k + fuel) accessToken types w
    = accumulate_while server fuel client theTypes
        (cursor (result (page k))) (pageObjects page (S k)) w'
    /\ calls w' = calls w ++ pageCalls client theTypes page fails 0 (S k)
    /\ config w' = config w
    /\ logged w'
       = logged w
         ++ [LogVerbose "accumulateCatalogOrThrow"; LogVerbose "client"]
         ++ replicate (S k) (LogVerbose "pRetryOrThrow").
Proof.
  intros client theTypes Hserved Hcursors.
  destruct (Hserved 0 ltac:(lia)) as (Hfails & Hpre & Hpage).
  cbn [firstCall] in Hpre, Hpage. rewrite Nat.add_0_r in Hpre, Hpage.
  unfold pageRequest in Hpre, Hpage.
  unfold accumulateCatalogOrThrow.
  change (join_types types) with theTypes.
  set (w0 := {| config := config w; calls := calls w;
                logged := (logged w ++ [LogVerbose "accumulateCatalogOrThrow"])
                          ++ [LogVerbose "client"] |}).
  destruct (pRetryOrThrow_stops_at server
              (send server (listCatalog client None (Some theTypes))) _ w0
              (fails 0) (issues_send server _ (config w0)) Hfails Hpre)
    as (w1 & Hrun & Hc1 & Hcf1 & Hl1).
  { cbn [calls w0]. rewrite Hpage. intros _. apply not_retried_Returned. }
  specialize (Hl1 [] (logs_send server _)).
  cbn [calls w0] in Hrun, Hl1. rewrite Hpage in Hrun, Hl1.
  cbn [settled errorLine] in Hrun, Hl1.
  assert (Hfirst :
    (logger_verbose "accumulateCatalogOrThrow";;
     client ← Service.client (Some (Some accessToken));
     listCatalogResponse ←
       pRetryOrThrow (send server (listCatalog client None (Some theTypes)));
     mret (client, listCatalogResponse)) w
    = (Returned (client, page 0), w1)).
  { unfold Service.client. unfold_m. cbn.
    fold client. fold w0. by rewrite Hrun. }
  rewrite Hfirst. clear Hfirst.
  destruct (accumulate_while_pages client theTypes page fails
              (length (calls w)) k 0 fuel
              ([] ++ default [] (objects (result (page 0)))) w1)
    as (w' & Heq & Hcalls & Hcfg & Hlog).
  - rewrite Hc1, length_app, length_replicate. cbn [calls w0 firstCall]. lia.
  - done.
  - done.
  - exists w'. cbn [Nat.add] in Heq. rewrite Heq.
    split; [reflexivity | split; [| split]].
    + rewrite Hcalls, Hc1. unfold pageCalls. cbn [calls w0 seq map concat].
      by rewrite <- app_assoc.
    + rewrite Hcfg, Hcf1. done.
    + rewrite Hlog, Hl1, concat_replicate_nil. cbn [logged w0 replicate].
      rewrite !app_nil_r. by rewrite <- !app_assoc.
Qed.

Lemma pRetryOrThrow_send_frame {T} (r : Request T) w :
  config (pRetryOrThrow (send server r) w).2 = config w
  /\ exists n, 1 <= n <= 11
       /\ calls (pRetryOrThrow (send server r) w).2
          = calls w ++ replicate n (sent r).
Proof.
  destruct (pRetryOrThrow_issues server (send server r) r w
              (issues_send server r (config w)))
    as (k & w' & -> & Hk & Hc & Hcf & _).
  split; [done |]. exists (S k). split; [lia | done].
Qed.

Lemma accumulate_while_frame client theTypes :
  forall fuel cursor objs w out w',
    accumulate_while server fuel client theTypes cursor objs w
    = Some (out, w') ->
    config w' = config w
    /\ exists rest,
         calls w' = calls w ++ rest
         /\ Forall
              (fun call =>
                 exists c, call = sent (listCatalog client (Some c)
                                          (Some theTypes)))
              rest.
Proof.
  induction fuel as [| fuel IH]; intros cursor objs w out w';
    destruct cursor as [c |]; cbn [accumulate_while]; try done;
    try (intros [= <- <-]; split; [done |]; exists [];
         split; [by rewrite app_nil_r | constructor]).
  destruct (pRetryOrThrow_send_frame
              (listCatalog client (Some c) (Some theTypes)) w)
    as (Hcf & n & _ & Hc).
  assert (Hall : Forall
                   (fun call =>
                      exists c, call = sent (listCatalog client (Some c)
                                               (Some theTypes)))
                   (replicate n (sent (listCatalog client (Some c)
                                         (Some theTypes))))).
  { apply Forall_replicate. by exists c. }
  destruct (pRetryOrThrow _ w) as [[resp | e] w1]; cbn [snd] in *.
  - intros Hrun. destruct (IH _ _ _ _ _ Hrun) as (Hcf' & rest & Hc' & Hall').
    split; [congruence |]. eexists. split.
    + rewrite Hc', Hc. by rewrite <- app_assoc.
    + by apply Forall_app.
  - intros [= <- <-]. split; [done |]. eexists. by split.
Qed.

Lemma accumulateCatalogOrThrow_frame fuel accessToken types w out w' :
  let client := {| accessToken := Some accessToken;
                   environment := clientEnvironment (config w) |} in
  accumulateCatalogOrThrow server fuel accessToken types w = Some (out, w') ->
  config w' = config w
  /\ exists rest,
       calls w'
       = calls w ++ sent (listCatalog client None (Some (join_types types)))
                    :: rest
       /\ Forall
            (fun call =>
               exists cursor,
                 call = sent (listCatalog client cursor
                                (Some (join_types types))))
            rest.
Proof.
  intros client. unfold accumulateCatalogOrThrow.
  set (theTypes := join_types types).
  set (w0 := {| config := config w; calls := calls w;
                logged := (logged w ++ [LogVerbose "accumulateCatalogOrThrow"])
                          ++ [LogVerbose "client"] |}).
  replace ((logger_verbose "accumulateCatalogOrThrow";;
            client ← Service.client (Some (Some accessToken));
            listCatalogResponse ←
              pRetryOrThrow
                (send server (listCatalog client None (Some theTypes)));
            mret (client, listCatalogResponse)) w)
    with (match
            pRetryOrThrow
              (send server (listCatalog client None (Some theTypes))) w0
          with
          | (Returned a, w1) => (Returned (client, a), w1)
          | (Thrown e, w1) => (Thrown e, w1)
          end) by reflexivity.
  destruct (pRetryOrThrow_send_frame
              (listCatalog client None (Some theTypes)) w0)
    as (Hcf & n & Hn & Hc).
  destruct n as [| n]; [lia |]. cbn [replicate calls w0 config] in Hc, Hcf.
  assert (Hall : Forall
                   (fun call =>
                      exists cursor,
                        call = sent (listCatalog client cursor (Some theTypes)))
                   (replicate n (sent (listCatalog client None
                                         (Some theTypes))))).
  { apply Forall_replicate. by exists None. }
  destruct (pRetryOrThrow _ w0) as [[resp | e] w1]; cbn [snd] in *.
  - intros Hrun.
    destruct (accumulate_while_frame _ _ _ _ _ _ _ _ Hrun)
      as (Hcf' & rest & Hc' & Hall').
    split; [congruence |].
    exists (replicate n (sent (listCatalog client None (Some theTypes)))
            ++ rest).
    split.
    + rewrite Hc', Hc. by rewrite <- app_assoc.
    + apply Forall_app. split; [done |].
      eapply Forall_impl; [exact Hall' |].
      intros call (c & ->). by exists (Some c).
  - intros [= <- <-]. split; [done |]. eexists. by split.
Qed.

Lemma firstCall_0 i : firstCall (fun _ => 0) i = i.
Proof. induction i as [| i IH]; [done |]. cbn. rewrite IH. lia. Qed.

Lemma serves_servesAfter base client theTypes page n :
  serves server base client theTypes page n ->
  servesAfter server base client theTypes page (fun _ => 0) n.
Proof.
  intros Hserved i Hi. rewrite firstCall_0, Nat.add_0_r.
  split; [lia | split; [lia |]]. by apply Hserved.
Qed.

Lemma pageCalls_0 client theTypes page from n :
  pageCalls client theTypes page (fun _ => 0) from n
  = map (fun i => sent (pageRequest client theTypes page i)) (seq from n).
Proof.
  unfold pageCalls. revert from.
  induction n as [| n IH]; intros from; [done |].
  cbn. by rewrite IH.
Qed.

End CatalogFacts.

(* ===================================================================== *)
(** ** The retry policy *)
(* ===================================================================== *)

Section RetryPolicy.
Context `{Declarations}.
Variable server : Server.

(** C1.  The retry helper runs a thunk that issues request [r] between one
    and eleven times.  Every attempt that is followed by another one failed
    with a vendor [ApiError] whose status is at least 500 or equal to 429;
    and an attempt that fails in any other way is the last one: the helper
    throws and [r] is not issued again. *)
Theorem pRetryOrThrow_retries_only_retryable {T} (fn : M T) (r : Request T)
    (w : World) :
  issues server fn (config w) r ->
  exists n : nat,
    1 <= n <= 11
    /\ calls (pRetryOrThrow fn w).2 = calls w ++ replicate n (sent r)
    /\ (forall i, S i < n ->
          exists s b,
            server T (length (calls w) + i) r = Thrown (ApiError s b)
            /\ (s >= 500 \/ s = 429)%Z)
    /\ (forall i e,
          i < n ->
          server T (length (calls w) + i) r = Thrown e ->
          ~ retryable e ->
          S i = n /\ exists e', (pRetryOrThrow fn w).1 = Thrown e').
Proof.
  intros Hiss.
  destruct (pRetryOrThrow_issues server fn r w Hiss)
    as (k & w' & Heq & Hk & Hc & Hcf & Hpre & Hlast & _).
  exists (S k). rewrite Heq. cbn [fst snd].
  split; [lia |]. split; [done |]. split.
  - intros i Hi. destruct (Hpre i ltac:(lia)) as (e & He & s & b & -> & Hs).
    by exists s, b.
  - intros i e Hi He Hnr. assert (i = k) as ->.
    { destruct (Nat.eq_dec i k) as [| Hne]; [done |]. exfalso.
      destruct (Hpre i ltac:(lia)) as (e0 & Heq0 & Hr).
      rewrite He in Heq0. by injection Heq0 as <-. }
    split; [done |]. rewrite He. destruct e; cbn; eauto.
Qed.

(** C2, as the code has it.  When the attempt the helper stops at fails with
    a vendor [ApiError] that is not retryable, or with any [ApiError] on the
    eleventh attempt (the one made with [retriesLeft = 0]), the caller gets
    an [InternalServerErrorException] built around that error. *)
Theorem pRetryOrThrow_wraps_ApiError {T} (fn : M T) (r : Request T)
    (w : World) (i : nat) (s : Z) (b : string) :
  issues server fn (config w) r ->
  i <= 10 ->
  (forall j, j < i -> retried (server T (length (calls w) + j) r)) ->
  server T (length (calls w) + i) r = Thrown (ApiError s b) ->
  ~ (s >= 500 \/ s = 429)%Z \/ i = 10 ->
  (pRetryOrThrow fn w).1
  = Thrown (InternalServerErrorException (ApiError s b))
  /\ calls (pRetryOrThrow fn w).2 = calls w ++ replicate (S i) (sent r).
Proof.
  intros Hiss Hi Hpre He Hstop.
  destruct (pRetryOrThrow_stops_at server fn r w i Hiss Hi Hpre)
    as (w' & Heq & Hc & _).
  - intros Hlt (e & Heq & s' & b' & -> & Hs). rewrite He in Heq.
    injection Heq as <- <-. destruct Hstop as [Hnr | ->]; [done | lia].
  - rewrite Heq, He. done.
Qed.

(** C9.  When an attempt fails with an error that is not a vendor
    [ApiError], the helper throws that very error and issues no further
    attempt. *)
Theorem pRetryOrThrow_rethrows_other_errors {T} (fn : M T) (r : Request T)
    (w : World) (i : nat) (e : JsError) :
  issues server fn (config w) r ->
  i <= 10 ->
  (forall j, j < i -> retried (server T (length (calls w) + j) r)) ->
  server T (length (calls w) + i) r = Thrown e ->
  instanceof_ApiError e = false ->
  (pRetryOrThrow fn w).1 = Thrown e
  /\ calls (pRetryOrThrow fn w).2 = calls w ++ replicate (S i) (sent r).
Proof.
  intros Hiss Hi Hpre He Hother.
  destruct (pRetryOrThrow_stops_at server fn r w i Hiss Hi Hpre)
    as (w' & Heq & Hc & _).
  - intros _ (e0 & Heq & s & b & -> & _). rewrite He in Heq.
    injection Heq as ->. discriminate.
  - rewrite Heq, He. split; [| done]. by destruct e.
Qed.

End RetryPolicy.

Lemma pRetryOrThrow_retries_only_retryable_witness :
  let server := Scenario.failing [ApiError 503 ""; ApiError 429 ""] in
  let r := Scenario.tokenCall in
  let w := Scenario.world in
  exists n : nat,
    1 <= n <= 11
    /\ calls (pRetryOrThrow (send server r) w).2
       = calls w ++ replicate n (sent r)
    /\ (forall i, S i < n ->
          exists s b,
            server _ (length (calls w) + i) r = Thrown (ApiError s b)
            /\ (s >= 500 \/ s = 429)%Z)
    /\ (forall i e,
          i < n ->
          server _ (length (calls w) + i) r = Thrown e ->
          ~ retryable e ->
          S i = n
          /\ exists e', (pRetryOrThrow (send server r) w).1 = Thrown e').
Proof.
  intros server r w.
  apply (pRetryOrThrow_retries_only_retryable server (send server r) r w).
  apply issues_send.
Defined.

(** C2, as the claim has it, fails on this run: ten attempts end in status
    500 and the eleventh, made with no retry left, in a plain [Error]; what
    the caller gets is that [Error], not an
    [InternalServerErrorException]. *)
Lemma pRetryOrThrow_exhausted_plain_error_not_wrapped :
  let server :=
    Scenario.failing
      (replicate 10 (ApiError 500 "") ++ [Error "socket hang up"]) in
  let run := pRetryOrThrow (send server Scenario.tokenCall) Scenario.world in
  run.1 = Thrown (Error "socket hang up")
  /\ calls run.2 = replicate 11 (sent Scenario.tokenCall).
Proof. vm_compute. split; reflexivity. Qed.

Lemma pRetryOrThrow_wraps_ApiError_witness :
  let server := Scenario.failing [ApiError 502 ""; ApiError 404 "gone"] in
  let run := pRetryOrThrow (send server Scenario.tokenCall) Scenario.world in
  run.1 = Thrown (InternalServerErrorException (ApiError 404 "gone"))
  /\ calls run.2
     = calls Scenario.world ++ replicate 2 (sent Scenario.tokenCall).
Proof.
  intros server.
  apply (pRetryOrThrow_wraps_ApiError server (send server Scenario.tokenCall)
           Scenario.tokenCall Scenario.world 1 404 "gone").
  - apply issues_send.
  - lia.
  - intros [| j] Hj; [| lia]. apply retried_ApiError. lia.
  - reflexivity.
  - left. lia.
Defined.

Lemma pRetryOrThrow_rethrows_other_errors_witness :
  let server :=
    Scenario.failing [ApiError 429 ""; Error "socket hang up"] in
  let run := pRetryOrThrow (send server Scenario.tokenCall) Scenario.world in
  run.1 = Thrown (Error "socket hang up")
  /\ calls run.2
     = calls Scenario.world ++ replicate 2 (sent Scenario.tokenCall).
Proof.
  intros server.
  apply (pRetryOrThrow_rethrows_other_errors server
           (send server Scenario.tokenCall) Scenario.tokenCall
           Scenario.world 1 (Error "socket hang up")).
  - apply issues_send.
  - lia.
  - intros [| j] Hj; [| lia]. apply retried_ApiError. lia.
  - reflexivity.
  - reflexivity.
Defined.

(* ===================================================================== *)
(** ** The operations built on the retry helper *)
(* ===================================================================== *)

Section Operations.
Context `{Declarations}.
Variable server : Server.

Lemma named_pRetryOrThrow_issues {T} name (fn : M T) (r : Request T) w :
  issues server fn (config w) r ->
  exists k w',
    (logger_verbose name;; pRetryOrThrow fn) w
    = (settled (server T (length (calls w) + k) r), w')
    /\ k <= 10
    /\ calls w' = calls w ++ replicate (S k) (sent r)
    /\ config w' = config w
    /\ (forall i, i < k -> retried (server T (length (calls w) + i) r))
    /\ (k < 10 -> ~ retried (server T (length (calls w) + k) r))
    /\ (forall lines, logs fn lines ->
          logged w'
          = logged w ++ [LogVerbose name; LogVerbose "pRetryOrThrow"]
            ++ concat (replicate (S k) lines)
            ++ errorLine (server T (length (calls w) + k) r)).
Proof.
  intros Hiss.
  set (w0 := {| config := config w; calls := calls w;
                logged := logged w ++ [LogVerbose name] |}).
  destruct (pRetryOrThrow_issues server fn r w0 Hiss)
    as (k & w' & Heq & Hk & Hc & Hcf & Hpre & Hlast & Hl).
  exists k, w'. split; [exact Heq |]. repeat split; try done.
  intros lines Hlines. rewrite (Hl lines Hlines). cbn [logged w0].
  by rewrite <- !app_assoc.
Qed.

Lemma then_result {T U} name (m : M T) (f : T -> U) w :
  (logger_verbose name;; response ← m; mret (f response)) w
  = match (logger_verbose name;; m) w with
    | (Returned response, w') => (Returned (f response), w')
    | (Thrown e, w') => (Thrown e, w')
    end.
Proof. reflexivity. Qed.

(** C7.  Both token operations forward to [obtainToken] on a client that
    carries no access token: [retryObtainTokenOrThrow] with grant type
    ["authorization_code"] and the caller's code, [retryRefreshTokenOrThrow]
    with grant type ["refresh_token"] and the caller's refresh token,
    either with the configured client id and secret.  Every request the
    operation sends is this one, once per attempt, and the operation ends
    the way the retry helper settles the last of them. *)
Theorem retryToken_forwards_obtainToken (w : World)
    (code refreshToken : string) :
  let client :=
    {| accessToken := None;
       environment := clientEnvironment (config w) |} in
  let byCode :=
    obtainToken client
      {| clientId := oauthClientId (config w);
         clientSecret := Some (oauthClientSecret (config w));
         code := Some code;
         grantType := "authorization_code";
         refreshToken := None |} in
  let byRefreshToken :=
    obtainToken client
      {| clientId := oauthClientId (config w);
         clientSecret := Some (oauthClientSecret (config w));
         code := None;
         grantType := "refresh_token";
         refreshToken := Some refreshToken |} in
  (exists k,
      k <= 10
      /\ calls (retryObtainTokenOrThrow server code w).2
         = calls w ++ replicate (S k) (sent byCode)
      /\ (retryObtainTokenOrThrow server code w).1
         = settled (server _ (length (calls w) + k) byCode))
  /\ (exists k,
        k <= 10
        /\ calls (retryRefreshTokenOrThrow server refreshToken w).2
           = calls w ++ replicate (S k) (sent byRefreshToken)
        /\ (retryRefreshTokenOrThrow server refreshToken w).1
           = settled (server _ (length (calls w) + k) byRefreshToken)).
Proof.
  intros client byCode byRefreshToken. split.
  - destruct (named_pRetryOrThrow_issues "retryObtainTokenOrThrow" _ _ w
                (issues_client_config_send server None
                   (fun c config =>
                      obtainToken c
                        {| clientId := oauthClientId config;
                           clientSecret := Some (oauthClientSecret config);
                           code := Some code;
                           grantType := "authorization_code";
                           refreshToken := None |})
                   (config w)))
      as (k & w' & Heq & Hk & Hc & _).
    exists k. unfold retryObtainTokenOrThrow. rewrite Heq. done.
  - destruct (named_pRetryOrThrow_issues "retryRefreshTokenOrThrow" _ _ w
                (issues_client_config_send server None
                   (fun c config =>
                      obtainToken c
                        {| clientId := oauthClientId config;
                           clientSecret := Some (oauthClientSecret config);
                           code := None;
                           grantType := "refresh_token";
                           refreshToken := Some refreshToken |})
                   (config w)))
      as (k & w' & Heq & Hk & Hc & _).
    exists k. unfold retryRefreshTokenOrThrow. rewrite Heq. done.
Qed.

(** C10.  [uploadCatalogImageOrThrow] sends [createCatalogImage] with the
    caller's idempotency key and object id, an image of type ["IMAGE"]
    whose id is ["#"] followed by the caller's id and whose data hold the
    caller's caption, and the file's buffer as a stream of the file's
    content type; it returns the [result] field of the response, not the
    response. *)
Theorem uploadCatalogImageOrThrow_request_and_result (w : World)
    (accessToken idempotencyKey id : string) (objectId : option string)
    (file : NestSquareFile) (caption : option string) :
  let request :=
    createCatalogImage
      {| accessToken := Some accessToken;
         environment := clientEnvironment (config w) |}
      {| idempotencyKey := idempotencyKey;
         objectId := objectId;
         image :=
           {| type := "IMAGE";
              id := ("#" ++ id)%string;
              imageData := Some {| caption := caption |} |} |}
      {| fileStream := [buffer file];
         contentType := Some (mimetype file) |} in
  let run :=
    uploadCatalogImageOrThrow server accessToken idempotencyKey id objectId
      file caption w in
  exists k,
    k <= 10
    /\ calls run.2 = calls w ++ replicate (S k) (sent request)
    /\ run.1
       = match settled (server _ (length (calls w) + k) request) with
         | Returned response => Returned (result response)
         | Thrown e => Thrown e
         end.
Proof.
  intros request run.
  destruct (named_pRetryOrThrow_issues "uploadCatalogImageOrThrow" _ _ w
              (issues_client_send server (Some (Some accessToken))
                 (fun c =>
                    createCatalogImage c
                      {| idempotencyKey := idempotencyKey;
                         objectId := objectId;
                         image :=
                           {| type := "IMAGE";
                              id := ("#" ++ id)%string;
                              imageData := Some {| caption := caption |} |} |}
                      {| fileStream := [buffer file];
                         contentType := Some (mimetype file) |})
                 (config w)))
    as (k & w' & Heq & Hk & Hc & _).
  exists k. subst run. unfold uploadCatalogImageOrThrow, bufferToStream.
  cbv zeta. rewrite then_result. rewrite Heq.
  split; [done |]. by destruct (settled _).
Qed.

Lemma named_pRetryOrThrow_keepsConfig {T} name (fn : M T) :
  keepsConfig fn -> keepsConfig (logger_verbose name;; pRetryOrThrow fn).
Proof.
  intros Hfn w.
  exact (pRetryOrThrow_keepsConfig fn Hfn
           {| config := config w; calls := calls w;
              logged := logged w ++ [LogVerbose name] |}).
Qed.

Lemma retryOrThrow_keepsConfig {T} accessToken (clientFn : Client -> M T) :
  (forall c, keepsConfig (clientFn c)) ->
  keepsConfig (retryOrThrow accessToken clientFn).
Proof.
  intros Hfn. apply named_pRetryOrThrow_keepsConfig. intros w.
  exact (Hfn _ _).
Qed.

(** C8.  No public operation changes the injected configuration: it is the
    same record after the operation as before.  For [retryOrThrow] this is
    so when the caller's function leaves it alone; for the listing, whenever
    the operation has ended. *)
Theorem config_never_mutated (w : World) :
  (forall params, config (client params w).2 = config w)
  /\ (forall T accessToken (clientFn : Client -> M T),
        (forall c, keepsConfig (clientFn c)) ->
        config (retryOrThrow accessToken clientFn w).2 = config w)
  /\ (forall code, config (retryObtainTokenOrThrow server code w).2 = config w)
  /\ (forall refreshToken,
        config (retryRefreshTokenOrThrow server refreshToken w).2 = config w)
  /\ (forall fuel accessToken types out w',
        accumulateCatalogOrThrow server fuel accessToken types w
        = Some (out, w') ->
        config w' = config w)
  /\ (forall accessToken idempotencyKey id objectId file caption,
        config (uploadCatalogImageOrThrow server accessToken idempotencyKey
                  id objectId file caption w).2
        = config w).
Proof.
  split; [done |]. split.
  { intros T accessToken clientFn Hfn.
    by apply retryOrThrow_keepsConfig. }
  split.
  { intros code. by apply named_pRetryOrThrow_keepsConfig. }
  split.
  { intros refreshToken. by apply named_pRetryOrThrow_keepsConfig. }
  split.
  { intros fuel accessToken types out w' Hrun.
    by destruct (accumulateCatalogOrThrow_frame server _ _ _ _ _ _ Hrun). }
  intros accessToken idempotencyKey id objectId file caption.
  unfold uploadCatalogImageOrThrow. cbv zeta. rewrite then_result.
  match goal with
  | |- context [(logger_verbose ?name;; pRetryOrThrow ?fn) w] =>
      pose proof (named_pRetryOrThrow_keepsConfig name fn ltac:(done) w)
        as Hkeep;
      by destruct ((logger_verbose name;; pRetryOrThrow fn) w)
        as [[response | e] w']
  end.
Qed.

End Operations.

(* ===================================================================== *)
(** ** The catalog listing *)
(* ===================================================================== *)

Section Listing.
Context `{Declarations}.
Variable server : Server.

Lemma accumulate_while_done fuel client theTypes objs w :
  accumulate_while server fuel client theTypes None objs w
  = Some (Returned objs, w).
Proof. by destruct fuel. Qed.

Lemma servesAfter_le base client theTypes page fails n m :
  m <= n ->
  servesAfter server base client theTypes page fails n ->
  servesAfter server base client theTypes page fails m.
Proof. intros Hle Hserved i Hi. apply Hserved. lia. Qed.

Lemma accumulateCatalogOrThrow_running accessToken types w page fails k :
  let client := {| accessToken := Some accessToken;
                   environment := clientEnvironment (config w) |} in
  servesAfter server (length (calls w)) client (join_types types) page fails
    (S k) ->
  (forall i, i <= k -> cursor (result (page i)) <> None) ->
  accumulateCatalogOrThrow server k accessToken types w = None.
Proof.
  intros client Hserved Hcursors.
  destruct (accumulateCatalogOrThrow_pages server accessToken types w page
              fails k 0 Hserved) as (w' & Heq & _).
  { intros i Hi. apply Hcursors. lia. }
  rewrite Nat.add_0_r in Heq. rewrite Heq.
  pose proof (Hcursors k ltac:(lia)) as Hk.
  by destruct (cursor (result (page k))).
Qed.

Lemma accumulateCatalogOrThrow_returns accessToken types w page fails k fuel :
  let client := {| accessToken := Some accessToken;
                   environment := clientEnvironment (config w) |} in
  let theTypes := join_types types in
  servesAfter server (length (calls w)) client theTypes page fails (S k) ->
  (forall i, i < k -> cursor (result (page i)) <> None) ->
  cursor (result (page k)) = None ->
  k <= fuel ->
  exists w',
    accumulateCatalogOrThrow server fuel accessToken types w
    = Some (Returned (pageObjects page (S k)), w')
    /\ calls w' = calls w ++ pageCalls client theTypes page fails 0 (S k)
    /\ logged w'
       = logged w
         ++ [LogVerbose "accumulateCatalogOrThrow"; LogVerbose "client"]
         ++ replicate (S k) (LogVerbose "pRetryOrThrow").
Proof.
  intros client theTypes Hserved Hcursors Hlast Hfuel.
  destruct (accumulateCatalogOrThrow_pages server accessToken types w page
              fails k (fuel - k) Hserved Hcursors)
    as (w' & Heq & Hc & _ & Hl).
  replace (k + (fuel - k)) with fuel in Heq by lia.
  exists w'. rewrite Heq, Hlast, accumulate_while_done. done.
Qed.

(** C3.  Let the server answer the requests of a listing with the pages
    [page 0 .. page k], of which all before [page k] carry a cursor.  Then
    the listing is still under way after fewer than [k] turns of its loop.
    If [page k] carries no cursor, the operation ends there: it returns
    after exactly the [k + 1] requests for these pages.  If [page k] carries
    a cursor [c], the operation does not end there: it is still under way
    after [k] turns, and whenever it has ended it has sent a further
    [listCatalog] request with the cursor [c]. *)
Theorem accumulateCatalogOrThrow_stops_at_undefined_cursor (w : World)
    (accessToken : string) (types : list NestSquareCatalogObjectTypeEnum)
    (page : nat -> ApiResponse ListCatalogResponse) (k : nat) :
  let client := {| accessToken := Some accessToken;
                   environment := clientEnvironment (config w) |} in
  let theTypes := join_types types in
  let requests :=
    map (fun i => sent (pageRequest client theTypes page i)) (seq 0 (S k)) in
  serves server (length (calls w)) client theTypes page (S k) ->
  (forall i, i < k -> cursor (result (page i)) <> None) ->
  (forall fuel,
      fuel < k ->
      accumulateCatalogOrThrow server fuel accessToken types w = None)
  /\ (cursor (result (page k)) = None ->
      forall fuel,
        k <= fuel ->
        exists objs w',
          accumulateCatalogOrThrow server fuel accessToken types w
          = Some (Returned objs, w')
          /\ calls w' = calls w ++ requests)
  /\ (forall c,
        cursor (result (page k)) = Some c ->
        accumulateCatalogOrThrow server k accessToken types w = None
        /\ forall fuel out w',
             accumulateCatalogOrThrow server fuel accessToken types w
             = Some (out, w') ->
             exists rest,
               calls w'
               = calls w ++ requests
                 ++ sent (listCatalog client (Some c) (Some theTypes))
                    :: rest).
Proof.
  intros client theTypes requests Hserved Hcursors.
  apply serves_servesAfter in Hserved.
  assert (Hrunning : forall fuel,
             fuel <= k ->
             (forall i, i <= fuel -> cursor (result (page i)) <> None) ->
             accumulateCatalogOrThrow server fuel accessToken types w = None).
  { intros fuel Hfuel Hdefined.
    apply (accumulateCatalogOrThrow_running accessToken types w page
             (fun _ => 0) fuel); [| done].
    by apply (servesAfter_le _ _ _ _ _ (S k)); [lia |]. }
  split; [| split].
  - intros fuel Hfuel. apply Hrunning; [lia |].
    intros i Hi. apply Hcursors. lia.
  - intros Hlast fuel Hfuel.
    destruct (accumulateCatalogOrThrow_returns accessToken types w page
                (fun _ => 0) k fuel Hserved Hcursors Hlast Hfuel)
      as (w' & Heq & Hc & _).
    exists (pageObjects page (S k)), w'. split; [done |].
    by rewrite Hc, pageCalls_0.
  - intros c Hc. split.
    + apply Hrunning; [lia |]. intros i Hi.
      destruct (Nat.eq_dec i k) as [-> | Hne]; [by rewrite Hc |].
      apply Hcursors. lia.
    + intros fuel out w' Hrun.
      destruct (le_lt_dec fuel k) as [Hle | Hgt].
      { rewrite Hrunning in Hrun; [done | done |]. intros i Hi.
        destruct (Nat.eq_dec i k) as [-> | Hne]; [by rewrite Hc |].
        apply Hcursors. lia. }
      destruct (accumulateCatalogOrThrow_pages server accessToken types w
                  page (fun _ => 0) k (fuel - k) Hserved Hcursors)
        as (w1 & Heq & Hc1 & _).
      replace (k + (fuel - k)) with fuel in Heq by lia.
      rewrite Heq, Hc in Hrun.
      destruct (fuel - k) as [| fuel'] eqn:Hf; [lia |].
      cbn [accumulate_while] in Hrun.
      destruct (pRetryOrThrow_send_frame server
                  (listCatalog client (Some c) (Some theTypes)) w1)
        as (_ & n & Hn & Hc2).
      destruct n as [| n]; [lia |]. cbn [replicate] in Hc2.
      rewrite pageCalls_0 in Hc1. fold requests in Hc1.
      destruct (pRetryOrThrow _ w1) as [[resp | e] w2]; cbn [snd] in *.
      * destruct (accumulate_while_frame server _ _ _ _ _ _ _ _ Hrun)
          as (_ & rest & Hc3 & _).
        eexists. rewrite Hc3, Hc2, Hc1. rewrite <- !app_assoc.
        rewrite <- app_comm_cons. reflexivity.
      * injection Hrun as <- <-. eexists. rewrite Hc2, Hc1.
        by rewrite <- app_assoc.
Qed.

(** C4.  When the server answers the requests of a listing with the pages
    [page 0 .. page k], the last of which is the first without a cursor, the
    operation returns the objects of these pages, page after page (nothing
    for a page without [objects]); it has sent one request per page, all
    with the types joined by commas, the first without a cursor and each
    later one with the cursor of the page before. *)
Theorem accumulateCatalogOrThrow_concatenates_pages (w : World)
    (accessToken : string) (types : list NestSquareCatalogObjectTypeEnum)
    (page : nat -> ApiResponse ListCatalogResponse) (k fuel : nat) :
  let client := {| accessToken := Some accessToken;
                   environment := clientEnvironment (config w) |} in
  let theTypes := String.concat "," (map enumValue types) in
  serves server (length (calls w)) client theTypes page (S k) ->
  (forall i, i < k -> cursor (result (page i)) <> None) ->
  cursor (result (page k)) = None ->
  k <= fuel ->
  exists w',
    accumulateCatalogOrThrow server fuel accessToken types w
    = Some (Returned
              (concat (map (fun i => default [] (objects (result (page i))))
                         (seq 0 (S k)))),
            w')
    /\ calls w'
       = calls w
         ++ map (fun i =>
                   sent (listCatalog client
                           match i with
                           | O => None
                           | S j => cursor (result (page j))
                           end
                           (Some theTypes)))
              (seq 0 (S k)).
Proof.
  intros client theTypes Hserved Hcursors Hlast Hfuel.
  apply serves_servesAfter in Hserved.
  destruct (accumulateCatalogOrThrow_returns accessToken types w page
              (fun _ => 0) k fuel Hserved Hcursors Hlast Hfuel)
    as (w' & Heq & Hc & _).
  exists w'. split; [exact Heq |]. by rewrite Hc, pageCalls_0.
Qed.

End Listing.

(* ===================================================================== *)
(** ** The configuration factory *)
(* ===================================================================== *)

Section Factory.
Variable toString : list ValidationError -> string.

Lemma NestSquareConfig_cases (env : gmap string string) :
  NestSquareConfig toString env
  = match env !! "SQUARE_OAUTH_CLIENT_ID",
          env !! "SQUARE_OAUTH_CLIENT_SECRET",
          env !! "SQUARE_CLIENT_ENVIRONMENT" with
    | Some id, Some secret, Some environment =>
        Returned {| clientEnvironment := environment;
                    oauthClientId := id;
                    oauthClientSecret := secret |}
    | _, _, _ => Thrown (Error (toString (validateSync env false)))
    end.
Proof.
  unfold NestSquareConfig, validateSync, plainToClass, SquareConfigValidator.
  rewrite !lookup_total_alt. cbn [flat_map IsString].
  destruct (env !! "SQUARE_OAUTH_CLIENT_ID") as [id |];
    destruct (env !! "SQUARE_OAUTH_CLIENT_SECRET") as [secret |];
    destruct (env !! "SQUARE_CLIENT_ENVIRONMENT") as [environment |];
    reflexivity.
Qed.

(** C5.  The factory throws when one of the three variables is not set,
    and when all three are set it returns the record made of their
    values. *)
Theorem NestSquareConfig_missing_or_built (env : gmap string string) :
  (env !! "SQUARE_CLIENT_ENVIRONMENT" = None
   \/ env !! "SQUARE_OAUTH_CLIENT_ID" = None
   \/ env !! "SQUARE_OAUTH_CLIENT_SECRET" = None ->
   exists e, NestSquareConfig toString env = Thrown e)
  /\ (forall environment id secret,
        env !! "SQUARE_CLIENT_ENVIRONMENT" = Some environment ->
        env !! "SQUARE_OAUTH_CLIENT_ID" = Some id ->
        env !! "SQUARE_OAUTH_CLIENT_SECRET" = Some secret ->
        NestSquareConfig toString env
        = Returned {| clientEnvironment := environment;
                      oauthClientId := id;
                      oauthClientSecret := secret |}).
Proof.
  rewrite NestSquareConfig_cases. split.
  - intros [-> | [-> | ->]];
      repeat match goal with
        | |- context [match ?x with Some _ => _ | None => _ end] => destruct x
        end; eauto.
  - by intros environment id secret -> -> ->.
Qed.

(** C6, as the code has it.  The fields of an accepted record are the
    values of the three variables, all of which are set; nothing is asked
    of their length. *)
Theorem NestSquareConfig_accepted_fields (env : gmap string string)
    (c : NestSquareConfigType) :
  NestSquareConfig toString env = Returned c ->
  env !! "SQUARE_CLIENT_ENVIRONMENT" = Some (clientEnvironment c)
  /\ env !! "SQUARE_OAUTH_CLIENT_ID" = Some (oauthClientId c)
  /\ env !! "SQUARE_OAUTH_CLIENT_SECRET" = Some (oauthClientSecret c).
Proof.
  rewrite NestSquareConfig_cases.
  destruct (env !! "SQUARE_OAUTH_CLIENT_ID") as [id |];
    destruct (env !! "SQUARE_OAUTH_CLIENT_SECRET") as [secret |];
    destruct (env !! "SQUARE_CLIENT_ENVIRONMENT") as [environment |];
    try done.
  by intros [= <-].
Qed.

End Factory.

Lemma NestSquareConfig_missing_or_built_witness :
  (exists e,
      NestSquareConfig Scenario.toString
        {[ "SQUARE_OAUTH_CLIENT_ID" := "sq0idp-1" ]}
      = Thrown e)
  /\ NestSquareConfig Scenario.toString Scenario.env
     = Returned Scenario.config.
Proof.
  split.
  - apply (NestSquareConfig_missing_or_built Scenario.toString
             {[ "SQUARE_OAUTH_CLIENT_ID" := "sq0idp-1" ]}).
    left. reflexivity.
  - apply (NestSquareConfig_missing_or_built Scenario.toString Scenario.env);
      reflexivity.
Defined.

(** C6, as the claim has it, fails on an environment that sets the three
    variables to the empty string: the record is accepted, and its fields
    have length 0. *)
Lemma NestSquareConfig_accepts_empty_strings :
  let env : gmap string string :=
    {[ "SQUARE_CLIENT_ENVIRONMENT" := "";
       "SQUARE_OAUTH_CLIENT_ID" := "";
       "SQUARE_OAUTH_CLIENT_SECRET" := "" ]} in
  exists c,
    NestSquareConfig Scenario.toString env = Returned c
    /\ String.length (clientEnvironment c) = 0
    /\ String.length (oauthClientId c) = 0
    /\ String.length (oauthClientSecret c) = 0.
Proof. eexists. repeat split; reflexivity. Qed.

Lemma NestSquareConfig_accepted_fields_witness :
  Scenario.env !! "SQUARE_CLIENT_ENVIRONMENT" = Some "sandbox"
  /\ Scenario.env !! "SQUARE_OAUTH_CLIENT_ID" = Some "sq0idp-1"
  /\ Scenario.env !! "SQUARE_OAUTH_CLIENT_SECRET" = Some "sq0csp-2".
Proof.
  apply (NestSquareConfig_accepted_fields Scenario.toString Scenario.env
           Scenario.config).
  reflexivity.
Defined.

(* ===================================================================== *)
(** ** The statements at work on the test account *)
(* ===================================================================== *)

Lemma steady_serves :
  serves Scenario.steady 0 Scenario.catalogClient "ITEM,CATEGORY"
    Scenario.page 2.
Proof. intros [| [| i]] Hi; [reflexivity | reflexivity | lia]. Defined.

Lemma page_0_has_cursor i :
  i < 1 -> cursor (result (Scenario.page i)) <> None.
Proof. intros Hi. destruct i as [| i]; [discriminate | lia]. Defined.

Lemma accumulateCatalogOrThrow_stops_at_undefined_cursor_witness :
  let w := Scenario.world in
  let requests :=
    [sent (listCatalog Scenario.catalogClient None (Some "ITEM,CATEGORY"));
     sent (listCatalog Scenario.catalogClient (Some "next")
             (Some "ITEM,CATEGORY"))] in
  accumulateCatalogOrThrow Scenario.steady 0 "TOKEN" ["ITEM"; "CATEGORY"] w
  = None
  /\ exists objs w',
       accumulateCatalogOrThrow Scenario.steady 1 "TOKEN" ["ITEM"; "CATEGORY"]
         w
       = Some (Returned objs, w')
       /\ calls w' = calls w ++ requests.
Proof.
  destruct (accumulateCatalogOrThrow_stops_at_undefined_cursor Scenario.steady
              Scenario.world "TOKEN" ["ITEM"; "CATEGORY"] Scenario.page 1
              steady_serves page_0_has_cursor)
    as (Hbefore & Hlast & _).
  split.
  - apply Hbefore. lia.
  - apply Hlast; [reflexivity | lia].
Defined.

Lemma accumulateCatalogOrThrow_concatenates_pages_witness :
  exists w',
    accumulateCatalogOrThrow Scenario.steady 7 "TOKEN" ["ITEM"; "CATEGORY"]
      Scenario.world
    = Some (Returned [Scenario.item; Scenario.category], w')
    /\ calls w'
       = [sent (listCatalog Scenario.catalogClient None
                  (Some "ITEM,CATEGORY"));
          sent (listCatalog Scenario.catalogClient (Some "next")
                  (Some "ITEM,CATEGORY"))].
Proof.
  apply (accumulateCatalogOrThrow_concatenates_pages Scenario.steady
           Scenario.world "TOKEN" ["ITEM"; "CATEGORY"] Scenario.page 1 7
           steady_serves page_0_has_cursor).
  - reflexivity.
  - lia.
Defined.

Lemma config_never_mutated_witness :
  config
    (retryOrThrow "TOKEN"
       (fun c => send Scenario.steady (listCatalog c None None))
       Scenario.world).2
  = Scenario.config
  /\ exists out w',
       accumulateCatalogOrThrow Scenario.steady 1 "TOKEN" ["ITEM"]
         Scenario.world
       = Some (out, w')
       /\ config w' = Scenario.config.
Proof.
  destruct (config_never_mutated Scenario.steady Scenario.world)
    as (_ & Hretry & _ & _ & Hlisting & _).
  split.
  - apply Hretry. intros c w. reflexivity.
  - eexists _, _. split; [reflexivity |].
    apply (Hlisting 1 "TOKEN" ["ITEM"] _ _ eq_refl).
Defined.

(* ===================================================================== *)
(** ** Further properties of the retry helper *)
(* ===================================================================== *)

Section RetryFurther.
Context `{Declarations}.


(** X2.  Wrapping a thunk twice retries no more than wrapping it once:
    what the inner helper throws is never a vendor [ApiError], so the
    outer one rethrows it at once.  Only the outer helper's line in the
    log tells the two apart. *)
Theorem pRetryOrThrow_nested {T} (fn : M T) (w : World) :
  pRetryOrThrow (pRetryOrThrow fn) w
  = pRetryOrThrow fn (logger_verbose "pRetryOrThrow" w).2.
Proof.
  unfold pRetryOrThrow at 1. unfold pRetry. unfold_m. cbn [snd].
  rewrite attempt_eq.
  set (w0 := {| config := config w; calls := calls w;
                logged := logged w ++ [LogVerbose "pRetryOrThrow"] |}).
  destruct (pRetryOrThrow fn w0) as [[v | e] w1] eqn:Hrun; [done |].
  rewrite onFailedAttempt_other; [done |].
  unfold pRetryOrThrow, pRetry in Hrun. unfold_m.
  exact (attempt_not_ApiError fn 10 1 [] _ e w1 (le_n 1) Hrun).
Qed.

End RetryFurther.

(* ===================================================================== *)
(** ** Further properties of the operations *)
(* ===================================================================== *)

Section OperationsFurther.
Context `{Declarations}.
Variable server : Server.

Lemma concat_replicate_singleton {A} n (x : A) :
  concat (replicate n [x]) = replicate n x.
Proof. induction n as [| n IH]; [done |]. cbn. by rewrite IH. Qed.

(** X3.  [retryOrThrow] with a callback that makes one request: the
    callback gets a client that carries the caller's access token and the
    configured environment, built anew for every attempt (one ["client"]
    line in the log per request sent); the request is repeated while it
    fails with a retryable error, eleven times at most; the caller sees
    the last answer as the retry helper settles it; and an error is logged
    exactly when that answer is a vendor [ApiError]. *)
Theorem retryOrThrow_request {T} (w : World) (accessToken : string)
    (f : Client -> Request T) :
  let r := f {| accessToken := Some accessToken;
                environment := clientEnvironment (config w) |} in
  let run := retryOrThrow accessToken (fun c => send server (f c)) w in
  exists k,
    k <= 10
    /\ run.1 = settled (server T (length (calls w) + k) r)
    /\ calls run.2 = calls w ++ replicate (S k) (sent r)
    /\ (forall i, i < k -> retried (server T (length (calls w) + i) r))
    /\ (k < 10 -> ~ retried (server T (length (calls w) + k) r))
    /\ logged run.2
       = logged w
         ++ [LogVerbose "retryOrThrow"; LogVerbose "pRetryOrThrow"]
         ++ replicate (S k) (LogVerbose "client")
         ++ errorLine (server T (length (calls w) + k) r).
Proof.
  intros r run.
  destruct (named_pRetryOrThrow_issues server "retryOrThrow" _ _ w
              (issues_client_send server (Some (Some accessToken)) f
                 (config w)))
    as (k & w' & Heq & Hk & Hc & _ & Hpre & Hlast & Hl).
  specialize (Hl _ (logs_client_send server (Some (Some accessToken)) f)).
  rewrite concat_replicate_singleton in Hl.
  exists k. subst run. unfold retryOrThrow. rewrite Heq. done.
Qed.

Lemma pageCalls_S client theTypes page fails from n :
  pageCalls client theTypes page fails from (S n)
  = pageCalls client theTypes page fails from n
    ++ replicate (S (fails (from + n)))
         (sent (pageRequest client theTypes page (from + n))).
Proof.
  unfold pageCalls. rewrite seq_S, map_app, concat_app. cbn [map concat].
  by rewrite app_nil_r.
Qed.

Lemma length_pageCalls client theTypes page fails n :
  length (pageCalls client theTypes page fails 0 n) = firstCall fails n.
Proof.
  induction n as [| n IH]; [done |].
  rewrite pageCalls_S, length_app, length_replicate, IH. done.
Qed.

(** X4.  Failures that are retried do not show in a listing.  When the
    request for page [i] fails [fails i] times (ten at most) with a
    retryable error before the server answers it, the operation returns the
    same objects as without failures; each page request is sent
    [fails i + 1] times with the same cursor; the client is built once for
    the whole listing; and no error is logged. *)
Theorem accumulateCatalogOrThrow_with_retries (w : World)
    (accessToken : string) (types : list NestSquareCatalogObjectTypeEnum)
    (page : nat -> ApiResponse ListCatalogResponse) (fails : nat -> nat)
    (k fuel : nat) :
  let client := {| accessToken := Some accessToken;
                   environment := clientEnvironment (config w) |} in
  let theTypes := join_types types in
  servesAfter server (length (calls w)) client theTypes page fails (S k) ->
  (forall i, i < k -> cursor (result (page i)) <> None) ->
  cursor (result (page k)) = None ->
  k <= fuel ->
  exists w',
    accumulateCatalogOrThrow server fuel accessToken types w
    = Some (Returned (pageObjects page (S k)), w')
    /\ calls w' = calls w ++ pageCalls client theTypes page fails 0 (S k)
    /\ logged w'
       = logged w
         ++ [LogVerbose "accumulateCatalogOrThrow"; LogVerbose "client"]
         ++ replicate (S k) (LogVerbose "pRetryOrThrow").
Proof.
  intros client theTypes.
  apply accumulateCatalogOrThrow_returns.
Qed.

(** X5.  A listing fails as a whole.  When the pages before page [k] have
    been served and the request for page [k] fails for good (with an error
    that is not retryable, or on its eleventh attempt), the operation
    throws what the retry helper makes of that error; the objects of the
    pages read so far are not returned, and no further request is sent. *)
Theorem accumulateCatalogOrThrow_fails_as_a_whole (w : World)
    (accessToken : string) (types : list NestSquareCatalogObjectTypeEnum)
    (page : nat -> ApiResponse ListCatalogResponse) (fails : nat -> nat)
    (k a fuel : nat) (e : JsError) :
  let client := {| accessToken := Some accessToken;
                   environment := clientEnvironment (config w) |} in
  let theTypes := join_types types in
  let r := pageRequest client theTypes page k in
  let base := length (calls w) + firstCall fails k in
  servesAfter server (length (calls w)) client theTypes page fails k ->
  (forall i, i < k -> cursor (result (page i)) <> None) ->
  a <= 10 ->
  (forall j, j < a -> retried (server _ (base + j) r)) ->
  server _ (base + a) r = Thrown e ->
  (a < 10 -> ~ retryable e) ->
  k <= fuel ->
  exists w',
    accumulateCatalogOrThrow server fuel accessToken types w
    = Some (Thrown (settledError e), w')
    /\ calls w'
       = calls w ++ pageCalls client theTypes page fails 0 k
         ++ replicate (S a) (sent r).
Proof.
  intros client theTypes r base Hserved Hcursors Ha Hpre He Hlast Hfuel.
  assert (Hnot : a < 10 -> ~ retried (server _ (base + a) r)).
  { intros Hlt (e' & Heq & Hr). rewrite He in Heq. injection Heq as <-.
    by apply Hlast. }
  destruct k as [| k].
  - subst base. cbn [firstCall] in *. rewrite Nat.add_0_r in *.
    unfold accumulateCatalogOrThrow. fold theTypes.
    set (w0 := {| config := config w; calls := calls w;
                  logged := (logged w
                             ++ [LogVerbose "accumulateCatalogOrThrow"])
                            ++ [LogVerbose "client"] |}).
    destruct (pRetryOrThrow_stops_at server (send server r) r w0 a
                (issues_send server r (config w0)) Ha Hpre Hnot)
      as (w1 & Hrun & Hc1 & _).
    cbn [calls w0] in Hrun, Hc1. rewrite He in Hrun. cbn [settled] in Hrun.
    replace ((logger_verbose "accumulateCatalogOrThrow";;
              client ← Service.client (Some (Some accessToken));
              listCatalogResponse ←
                pRetryOrThrow
                  (send server (listCatalog client None (Some theTypes)));
              mret (client, listCatalogResponse)) w)
      with (match pRetryOrThrow (send server r) w0 with
            | (Returned a, w1) => (Returned (client, a), w1)
            | (Thrown e, w1) => (Thrown e, w1)
            end) by reflexivity.
    rewrite Hrun. exists w1. done.
  - destruct (accumulateCatalogOrThrow_pages server accessToken types w page
                fails k (fuel - k) Hserved) as (w1 & Heq & Hc1 & Hcf1 & _).
    { intros i Hi. apply Hcursors. lia. }
    replace (k + (fuel - k)) with fuel in Heq by lia. rewrite Heq.
    pose proof (Hcursors k ltac:(lia)) as Hk.
    destruct (cursor (result (page k))) as [c |] eqn:Hcur; [| done].
    destruct (fuel - k) as [| fuel'] eqn:Hf; [lia |].
    cbn [accumulate_while].
    assert (Hr : r = listCatalog client (Some c) (Some theTypes)).
    { subst r. unfold pageRequest. by rewrite Hcur. }
    fold client. fold theTypes. rewrite <- Hr.
    assert (Hbase : length (calls w1) = base).
    { rewrite Hc1, length_app, length_pageCalls. done. }
    rewrite <- Hbase in Hpre, He, Hnot.
    destruct (pRetryOrThrow_stops_at server (send server r) r w1 a
                (issues_send server r (config w1)) Ha Hpre Hnot)
      as (w2 & Hrun & Hc2 & _).
    rewrite He in Hrun. cbn [settled] in Hrun. rewrite Hrun.
    exists w2. split; [done |]. rewrite Hc2, Hc1. by rewrite <- app_assoc.
Qed.

(** X6.  Whatever the server answers, a listing that has ended has sent
    [listCatalog] requests only, the first without a cursor, all of them
    through one client (the caller's access token, the configured
    environment) and with the types joined by commas. *)
Theorem accumulateCatalogOrThrow_requests (w w' : World) (fuel : nat)
    (accessToken : string) (types : list NestSquareCatalogObjectTypeEnum)
    (out : Outcome (list CatalogObject)) :
  let client := {| accessToken := Some accessToken;
                   environment := clientEnvironment (config w) |} in
  let theTypes := String.concat "," (map enumValue types) in
  accumulateCatalogOrThrow server fuel accessToken types w = Some (out, w') ->
  exists rest,
    calls w' = calls w ++ sent (listCatalog client None (Some theTypes)) :: rest
    /\ Forall
         (fun call =>
            exists cursor,
              call = sent (listCatalog client cursor (Some theTypes)))
         rest.
Proof.
  intros client theTypes Hrun.
  by destruct (accumulateCatalogOrThrow_frame server _ _ _ _ _ _ Hrun).
Qed.

(** X11.  Nothing but a page without a cursor ends a listing: against a
    server that answers every page request with a page that carries a
    cursor, the operation is still under way after any number of turns of
    its loop. *)
Theorem accumulateCatalogOrThrow_goes_on_while_cursors_come (w : World)
    (accessToken : string) (types : list NestSquareCatalogObjectTypeEnum)
    (page : nat -> ApiResponse ListCatalogResponse) (fuel : nat) :
  let client := {| accessToken := Some accessToken;
                   environment := clientEnvironment (config w) |} in
  (forall n,
      serves server (length (calls w)) client (join_types types) page n) ->
  (forall i, cursor (result (page i)) <> None) ->
  accumulateCatalogOrThrow server fuel accessToken types w = None.
Proof.
  intros client Hserved Hcursors.
  apply (accumulateCatalogOrThrow_running server accessToken types w page
           (fun _ => 0) fuel).
  - apply serves_servesAfter, Hserved.
  - intros i _. apply Hcursors.
Qed.

End OperationsFurther.

(* ===================================================================== *)
(** ** Further properties of the configuration and of the registration *)
(* ===================================================================== *)

Section FactoryFurther.
Variable toString : list ValidationError -> string.

(** X7.  Only the three variables count: two environments that agree on
    them give the same outcome, the same record or the same error. *)
Theorem NestSquareConfig_ignores_other_variables
    (env env' : gmap string string) :
  env !! "SQUARE_CLIENT_ENVIRONMENT" = env' !! "SQUARE_CLIENT_ENVIRONMENT" ->
  env !! "SQUARE_OAUTH_CLIENT_ID" = env' !! "SQUARE_OAUTH_CLIENT_ID" ->
  env !! "SQUARE_OAUTH_CLIENT_SECRET" = env' !! "SQUARE_OAUTH_CLIENT_SECRET" ->
  NestSquareConfig toString env = NestSquareConfig toString env'.
Proof.
  intros Henvironment Hid Hsecret.
  unfold NestSquareConfig, validateSync, plainToClass, SquareConfigValidator.
  rewrite !lookup_total_alt. cbn [flat_map].
  by rewrite Henvironment, Hid, Hsecret.
Qed.

(** X8.  The error of the factory names every variable that is not set,
    each once, in the order in which the validator declares them: client
    id, client secret, client environment. *)
Theorem NestSquareConfig_reports_every_missing (env : gmap string string) :
  let missing :=
    List.filter
      (fun p => match env !! p with
                | None => true
                | Some _ => false
                end)
      [ "SQUARE_OAUTH_CLIENT_ID";
        "SQUARE_OAUTH_CLIENT_SECRET";
        "SQUARE_CLIENT_ENVIRONMENT" ] in
  missing <> [] ->
  NestSquareConfig toString env
  = Thrown
      (Error
         (toString
            (map (fun p => {| property := p; constraint := "isString" |})
               missing))).
Proof.
  unfold NestSquareConfig, validateSync, plainToClass, SquareConfigValidator.
  cbn [flat_map List.filter IsString].
  destruct (env !! "SQUARE_OAUTH_CLIENT_ID") as [id |];
    destruct (env !! "SQUARE_OAUTH_CLIENT_SECRET") as [secret |];
    destruct (env !! "SQUARE_CLIENT_ENVIRONMENT") as [environment |];
    cbn; done.
Qed.

End FactoryFurther.

Section EndToEnd.
Context `{Declarations}.
Variable server : Server.
Variable toString : list ValidationError -> string.

(** X10.  From the environment to the wire: a service constructed with the
    configuration the factory loads sends, as its token request, the
    client id and the client secret of the environment, through a client
    of the environment that [SQUARE_CLIENT_ENVIRONMENT] names. *)
Theorem loaded_config_reaches_obtainToken (env : gmap string string)
    (c : NestSquareConfigType) (code : string) :
  NestSquareConfig toString env = Returned c ->
  exists k,
    k <= 10
    /\ calls (retryObtainTokenOrThrow server code (NestSquareService c)).2
       = replicate (S k)
           (sent
              (obtainToken
                 {| accessToken := None;
                    environment := env !!! "SQUARE_CLIENT_ENVIRONMENT" |}
                 {| clientId := env !!! "SQUARE_OAUTH_CLIENT_ID";
                    clientSecret :=
                      Some (env !!! "SQUARE_OAUTH_CLIENT_SECRET");
                    code := Some code;
                    grantType := "authorization_code";
                    refreshToken := None |})).
Proof.
  unfold NestSquareConfig.
  destruct (0 <? length _)%nat; [done |]. intros [= <-].
  destruct (named_pRetryOrThrow_issues server "retryObtainTokenOrThrow" _ _
              (NestSquareService
                 {| clientEnvironment := env !!! "SQUARE_CLIENT_ENVIRONMENT";
                    oauthClientId := env !!! "SQUARE_OAUTH_CLIENT_ID";
                    oauthClientSecret :=
                      env !!! "SQUARE_OAUTH_CLIENT_SECRET" |})
              (issues_client_config_send server None
                 (fun c config =>
                    obtainToken c
                      {| clientId := oauthClientId config;
                         clientSecret := Some (oauthClientSecret config);
                         code := Some code;
                         grantType := "authorization_code";
                         refreshToken := None |})
                 _))
    as (k & w' & Heq & Hk & Hc & _).
  exists k. unfold retryObtainTokenOrThrow. rewrite Heq. done.
Qed.

End EndToEnd.

Section RegistrationFacts.
Import Registration.
Variables ImportedModule Factory Token : Type.


End RegistrationFacts.

(* ===================================================================== *)
(** ** The further properties at work on the test account *)
(* ===================================================================== *)

(** The first page request fails once with status 503, then the two pages
    are served. *)
Lemma accumulateCatalogOrThrow_with_retries_witness :
  exists w',
    accumulateCatalogOrThrow (Scenario.failing [ApiError 503 ""]) 1 "TOKEN"
      ["ITEM"; "CATEGORY"] Scenario.world
    = Some (Returned [Scenario.item; Scenario.category], w')
    /\ calls w'
       = [sent (listCatalog Scenario.catalogClient None
                  (Some "ITEM,CATEGORY"));
          sent (listCatalog Scenario.catalogClient None
                  (Some "ITEM,CATEGORY"));
          sent (listCatalog Scenario.catalogClient (Some "next")
                  (Some "ITEM,CATEGORY"))]
    /\ logged w'
       = [LogVerbose "NestSquareService";
          LogVerbose "accumulateCatalogOrThrow"; LogVerbose "client";
          LogVerbose "pRetryOrThrow"; LogVerbose "pRetryOrThrow"].
Proof.
  apply (accumulateCatalogOrThrow_with_retries
           (Scenario.failing [ApiError 503 ""]) Scenario.world "TOKEN"
           ["ITEM"; "CATEGORY"] Scenario.page
           (fun i => match i with O => 1 | S _ => 0 end) 1 1).
  - intros [| [| i]] Hi; [| | lia].
    + split; [lia |]. split; [| reflexivity].
      intros [| a] Ha; [| lia]. apply retried_ApiError. lia.
    + split; [lia |]. split; [| reflexivity]. intros a Ha. lia.
  - exact page_0_has_cursor.
  - reflexivity.
  - lia.
Defined.

(** The first page is served; the request for the second is answered with
    status 404. *)
Lemma accumulateCatalogOrThrow_fails_as_a_whole_witness :
  exists w',
    accumulateCatalogOrThrow (Scenario.failingAt 1 (ApiError 404 "gone")) 3
      "TOKEN" ["ITEM"; "CATEGORY"] Scenario.world
    = Some (Thrown (InternalServerErrorException (ApiError 404 "gone")), w')
    /\ calls w'
       = [sent (listCatalog Scenario.catalogClient None
                  (Some "ITEM,CATEGORY"));
          sent (listCatalog Scenario.catalogClient (Some "next")
                  (Some "ITEM,CATEGORY"))].
Proof.
  apply (accumulateCatalogOrThrow_fails_as_a_whole
           (Scenario.failingAt 1 (ApiError 404 "gone")) Scenario.world
           "TOKEN" ["ITEM"; "CATEGORY"] Scenario.page (fun _ => 0) 1 0 3
           (ApiError 404 "gone")).
  - intros [| i] Hi; [| lia].
    split; [lia |]. split; [| reflexivity]. intros a Ha. lia.
  - exact page_0_has_cursor.
  - lia.
  - intros j Hj. lia.
  - reflexivity.
  - intros _ (s & b & [= <- <-] & Hs). lia.
  - lia.
Defined.

Lemma accumulateCatalogOrThrow_requests_witness :
  exists rest,
    calls
      (default (Returned [], Scenario.world)
         (accumulateCatalogOrThrow
            (Scenario.failingAt 1 (ApiError 404 "gone")) 3 "TOKEN"
            ["ITEM"; "CATEGORY"] Scenario.world)).2
    = sent (listCatalog Scenario.catalogClient None (Some "ITEM,CATEGORY"))
      :: rest
    /\ Forall
         (fun call =>
            exists cursor,
              call = sent (listCatalog Scenario.catalogClient cursor
                             (Some "ITEM,CATEGORY")))
         rest.
Proof.
  apply (accumulateCatalogOrThrow_requests
           (Scenario.failingAt 1 (ApiError 404 "gone")) Scenario.world _ 3
           "TOKEN" ["ITEM"; "CATEGORY"]
           (Thrown (InternalServerErrorException (ApiError 404 "gone")))).
  reflexivity.
Defined.

Lemma NestSquareConfig_ignores_other_variables_witness :
  NestSquareConfig Scenario.toString Scenario.env
  = NestSquareConfig Scenario.toString (delete "PATH" Scenario.env).
Proof.
  apply NestSquareConfig_ignores_other_variables; reflexivity.
Defined.

Lemma NestSquareConfig_reports_every_missing_witness :
  NestSquareConfig Scenario.toString
    {[ "SQUARE_OAUTH_CLIENT_ID" := "sq0idp-1" ]}
  = Thrown (Error "SQUARE_OAUTH_CLIENT_SECRET,SQUARE_CLIENT_ENVIRONMENT").
Proof.
  etransitivity.
  - apply (NestSquareConfig_reports_every_missing Scenario.toString
             {[ "SQUARE_OAUTH_CLIENT_ID" := "sq0idp-1" ]}).
    vm_compute. discriminate.
  - reflexivity.
Defined.

Lemma loaded_config_reaches_obtainToken_witness :
  exists k,
    k <= 10
    /\ calls (retryObtainTokenOrThrow Scenario.steady "AUTH"
                (NestSquareService Scenario.config)).2
       = replicate (S k) (sent Scenario.tokenCall).
Proof.
  apply (loaded_config_reaches_obtainToken Scenario.steady Scenario.toString
           Scenario.env Scenario.config "AUTH").
  reflexivity.
Defined.

Lemma accumulateCatalogOrThrow_goes_on_while_cursors_come_witness :
  accumulateCatalogOrThrow Scenario.endless 40 "TOKEN" ["ITEM"]
    Scenario.world
  = None.
Proof.
  apply (accumulateCatalogOrThrow_goes_on_while_cursors_come Scenario.endless
           Scenario.world "TOKEN" ["ITEM"] (fun _ => Scenario.page 0) 40).
  - intros n i Hi. reflexivity.
  - intros i. discriminate.
Defined.
